(** * Lectra: retry wrapper, analysis pipeline, quiz session and flashcard deck

    A shallow embedding of the parts of the Lectra front end that carry
    sequencing, failure handling and state-machine logic:

    - [services/geminiService.ts]: [withRetry] and the four stage functions
      ([generateGeneralSummary], [extractKnowledgeGraph], [extractTopics],
      [generateQuiz]);
    - [App.tsx]: [runPipeline] and [handleStartQuiz];
    - [components/QuizView.tsx]: the handlers of the quiz session and the
      conditions under which the rendered view offers them;
    - [components/FlashcardsView.tsx]: circular deck navigation;
    - [services/fileService.ts]: the choice of a reader by extension, and the
      text built from the pages of a PDF and the slides of a presentation;
    - [App.tsx] again: [handleFileChange], the sidebar, the word counter and
      the controls each page offers.

    Modelling conventions.

    - A JavaScript string is a [string]; its characters are read as code
      units below 256.
    - A thrown value is an [Error]-like object with an optional [message].
    - The reasoning service together with [JSON.parse] is an oracle: the
      outcome of the k-th request is either a thrown error or a payload of the
      TypeScript type the stage function declares.  The sources cast the
      parsed value to that type without looking at it; a parsed value that
      lacks its fields (the fallback [{}] of an empty response) has no
      counterpart among the typed payloads.
    - [Math.random] is an oracle of rationals; arithmetic on delays is exact.
    - React state is a record, each setter a field update; an asynchronous
      handler threads the record and the outside world explicitly.
    - A handler of a component runs when the button it is attached to is on
      the rendered page and not [disabled]; the conditions are those of the
      JSX. *)

From Stdlib Require Import String Ascii List Bool Arith ZArith QArith Lia.
From Stdlib Require Import DecimalString.
From Stdlib Require Import Lqa Sorted Permutation.
Import ListNotations.

Close Scope Q_scope.

(* ================================================================= *)
(** ** JavaScript primitives used by the sources *)

Module Js.

Local Open Scope string_scope.

(** Line feed and the double-quote character, for the prompt templates. *)
Definition nl : string := String (ascii_of_nat 10) EmptyString.
Definition dq : string := String (ascii_of_nat 34) EmptyString.

(** [s.includes(search)]. *)
Fixpoint includes (s search : string) : bool :=
  if String.prefix search s then true
  else match s with
       | EmptyString => false
       | String _ s' => includes s' search
       end.

(** White space and line terminators removed by [String.prototype.trim],
    among the code units below 256. *)
Definition isWhite (c : ascii) : bool :=
  let n := nat_of_ascii c in
  (((9 <=? n) && (n <=? 13)) || (n =? 32) || (n =? 160))%nat.

Fixpoint trimStart (s : string) : string :=
  match s with
  | EmptyString => EmptyString
  | String c s' => if isWhite c then trimStart s' else s
  end.

Fixpoint trimEnd (s : string) : string :=
  match s with
  | EmptyString => EmptyString
  | String c s' =>
      match trimEnd s' with
      | EmptyString => if isWhite c then EmptyString else String c EmptyString
      | t => String c t
      end
  end.

Definition trim (s : string) : string := trimEnd (trimStart s).

(** Truthiness of a string: only the empty string is falsy. *)
Definition truthy (s : string) : bool :=
  match s with
  | EmptyString => false
  | String _ _ => true
  end.

(** [`${n}`] for a non-negative integer. *)
Definition ofNat (n : nat) : string := NilZero.string_of_uint (Nat.to_uint n).

(** [xs.join(sep)]. *)
Fixpoint join (sep : string) (xs : list string) : string :=
  match xs with
  | [] => EmptyString
  | [x] => x
  | x :: rest => x ++ sep ++ join sep rest
  end.

(** A number that is an integer or [NaN] ([None]). *)
Definition Num : Type := option Z.

(** [a + b] and [a - b] on such numbers: [NaN] is absorbing. *)
Definition add (a b : Num) : Num :=
  match a, b with
  | Some x, Some y => Some (x + y)%Z
  | _, _ => None
  end.

Definition sub (a b : Num) : Num :=
  match a, b with
  | Some x, Some y => Some (x - y)%Z
  | _, _ => None
  end.

(** The remainder [a % b]: truncated, with the sign of [a]; [NaN] when [b]
    is zero or an operand is [NaN]. *)
Definition rem (a b : Num) : Num :=
  match a, b with
  | Some x, Some y => if (y =? 0)%Z then None else Some (Z.rem x y)
  | _, _ => None
  end.

End Js.

(* ================================================================= *)
(** ** types.ts *)

Module Types.

Record Subtopic := { sub_title : string; key_concepts : list string }.

Record Flashcard := { fc_id : string; front : string; back : string }.

Record Topic := {
  topic_id : string;
  title : string;
  summary : string;
  difficulty_level : nat;
  importance_score : nat;
  subtopics : list Subtopic
}.

Record TopicExtractionResponse := { topics_of : list Topic }.

Record QuizQuestion := {
  question_id : string;
  question : string;
  difficulty : nat;
  options : list string;
  correct_answer : string;
  explanation : string
}.

Record QuizResponse := { quiz : list QuizQuestion }.

Inductive EntityType := concept | person | theory | method.

Record Entity := { ent_id : string; ent_type : EntityType; ent_name : string }.

Record Relationship := { source : string; target : string; relation : string }.

Record KnowledgeGraphResponse := {
  entities : list Entity;
  relationships : list Relationship
}.

Record SummaryResponse := {
  overview : string;
  key_takeaways : list string;
  detailed_summary : string
}.

Inductive AppState :=
| IDLE | ANALYZING | TOPICS_VIEW | QUIZ_VIEW | KG_VIEW | SUMMARY_VIEW
| FLASHCARDS_VIEW.

End Types.

(* ================================================================= *)
(** ** services/geminiService.ts *)

Module Gemini.

Import Js Types.

(** *** Errors, results, the outside world *)

(** What an operation throws: an object whose [message] may be absent. *)
Record JsError := { err_name : string; message : option string }.

(** Outcome of a [try]: a value, or a thrown [E]. *)
Inductive Result (E T : Type) : Type :=
| Ok (v : T)
| Throw (err : E).
Arguments Ok {E T} v.
Arguments Throw {E T} err.

(** The [config] object literal of each stage function, named by its stage.
    Its response schema is carried by the type of the stage's payload. *)
Inductive Contract := TopicsContract | SummaryContract | QuizContract | GraphContract.

Local Open Scope string_scope.

Definition systemInstruction (c : Contract) : string :=
  match c with
  | TopicsContract =>
      "You are an academic content analysis engine. Your job is to extract structured topics from educational material. Return valid JSON only. Do not add explanations. Do not wrap output in markdown. Follow the schema strictly."
  | SummaryContract =>
      "You are an expert academic summarizer. Provide an overview, a list of key takeaways, and a detailed summary of the content. Return JSON only."
  | QuizContract =>
      "You are a university-level assessment generation engine. Return valid JSON only. No explanations. No markdown. Strictly follow schema. Ensure correct_answer matches exactly one option. Shuffle correct answer position."
  | GraphContract =>
      "You are a knowledge extraction engine. Return valid JSON only. No markdown. No commentary."
  end.

(** Argument of [ai.models.generateContent]. *)
Record Request := {
  model : string;
  contents : string;
  config : Contract
}.

(** Effects visible from outside, oldest first. *)
Inductive Event :=
| EvRequest (req : Request)              (* generateContent(req) was called *)
| EvSleep (ms : Q)                       (* setTimeout(resolve, ms) awaited *)
| EvConsoleError (err : option JsError)  (* console.error(err) *)
| EvAlert (msg : string).                (* alert(msg) *)

Record World := {
  w_calls : nat;        (* requests sent so far *)
  w_draws : nat;        (* Math.random() draws so far *)
  w_log : list Event
}.

(** The service and the random source.  [reply_* k req] is what the k-th
    request of the session yields once [generateContent] has answered and
    [JSON.parse(response.text || '{}')] has run: a typed payload, or the
    error either of them threw.  The service is free to answer the same
    request differently at different [k]. *)
Record Service := {
  reply_topics : nat -> Request -> Result JsError TopicExtractionResponse;
  reply_summary : nat -> Request -> Result JsError SummaryResponse;
  reply_quiz : nat -> Request -> Result JsError QuizResponse;
  reply_graph : nat -> Request -> Result JsError KnowledgeGraphResponse;
  random : nat -> Q
}.

(** Computations that act on the world. *)
Definition M (A : Type) : Type := World -> A * World.

Definition ret {A} (a : A) : M A := fun w => (a, w).

Definition bind {A B} (m : M A) (k : A -> M B) : M B :=
  fun w => let (a, w') := m w in k a w'.

Declare Scope io_scope.
Delimit Scope io_scope with io.
Notation "x <- m ;; k" := (bind m (fun x => k))
  (at level 61, m at next level, right associativity) : io_scope.
Notation "m ;;; k" := (bind m (fun _ => k))
  (at level 61, right associativity) : io_scope.

Definition emit (e : Event) : M unit :=
  fun w => (tt, {| w_calls := w_calls w; w_draws := w_draws w;
                   w_log := w_log w ++ [e] |}).

(** [await ai.models.generateContent(req)] followed by [JSON.parse]. *)
Definition generateContent {T} (reply : nat -> Request -> Result JsError T)
    (req : Request) : M (Result JsError T) :=
  fun w => (reply (w_calls w) req,
            {| w_calls := S (w_calls w); w_draws := w_draws w;
               w_log := w_log w ++ [EvRequest req] |}).

(** [Math.random()]. *)
Definition mathRandom (sv : Service) : M Q :=
  fun w => (random sv (w_draws w),
            {| w_calls := w_calls w; w_draws := S (w_draws w);
               w_log := w_log w |}).

(** [await new Promise(resolve => setTimeout(resolve, ms))]. *)
Definition sleep (ms : Q) : M unit := emit (EvSleep ms).

(** *** withRetry *)

(** [err.message?.includes("429") || err.message?.includes("RESOURCE_EXHAUSTED")];
    an absent message makes both disjuncts [undefined], which is falsy. *)
Definition isQuotaError (err : JsError) : bool :=
  match message err with
  | None => false
  | Some m => includes m "429" || includes m "RESOURCE_EXHAUSTED"
  end.

(** [Math.pow(2, i) * 1000 + r * 1000] where [r] is the random draw. *)
Definition wait (i : nat) (r : Q) : Q :=
  (inject_Z (2 ^ Z.of_nat i) * 1000 + r * 1000)%Q.

Local Open Scope io_scope.

(** The [for] loop of [withRetry], from counter value [i] with [fuel]
    iterations left ([fuel = maxRetries - i]).  Leaving the loop reaches the
    final [throw lastError]; [lastError] is [undefined] ([None]) until a
    [catch] has assigned it.  [i < maxRetries - 1] is written with the
    truncated subtraction of [nat]: at [maxRetries = 0] both [i < -1] and
    [i < 0] are false. *)
Fixpoint retryLoop {T} (sv : Service) (fn : M (Result JsError T))
    (maxRetries fuel i : nat) (lastError : option JsError)
    : M (Result (option JsError) T) :=
  match fuel with
  | O => ret (Throw lastError)
  | S fuel' =>
      r <- fn ;;
      match r with
      | Ok v => ret (Ok v)
      | Throw err =>
          if isQuotaError err && (i <? maxRetries - 1)%nat then
            x <- mathRandom sv ;;
            sleep (wait i x) ;;;
            retryLoop sv fn maxRetries fuel' (S i) (Some err)
          else ret (Throw (Some err))
      end
  end.

Definition withRetry {T} (sv : Service) (fn : M (Result JsError T))
    (maxRetries : nat) : M (Result (option JsError) T) :=
  retryLoop sv fn maxRetries maxRetries 0 None.

(** The default value of the parameter [maxRetries]. *)
Definition defaultMaxRetries : nat := 3.

(** The requests among a list of events, in order. *)
Fixpoint requestsOf (evs : list Event) : list Request :=
  match evs with
  | [] => []
  | EvRequest req :: rest => req :: requestsOf rest
  | _ :: rest => requestsOf rest
  end.

(** The delays among a list of events, in order. *)
Fixpoint sleepsOf (evs : list Event) : list Q :=
  match evs with
  | [] => []
  | EvSleep ms :: rest => ms :: sleepsOf rest
  | _ :: rest => sleepsOf rest
  end.

(** The events added to the log between two worlds. *)
Definition newEvents (w w' : World) : list Event :=
  skipn (length (w_log w)) (w_log w').

(** What [k] consecutive attempts on [req] leave in the log when the first
    starts at loop counter [i] and random draw [d]: a request per attempt,
    a delay between two attempts. *)
Fixpoint attemptsTrace (sv : Service) (req : Request) (k i d : nat)
    : list Event :=
  match k with
  | O => []
  | S k' =>
      EvRequest req ::
      match k' with
      | O => []
      | S _ => EvSleep (wait i (random sv d))
               :: attemptsTrace sv req k' (S i) (S d)
      end
  end.

(** The two literals [1000] of the backoff expression, under the names the
    specification gives them. *)
Definition base : Q := 1000%Q.


Definition isOk {E T} (r : Result E T) : bool :=
  match r with
  | Ok _ => true
  | Throw _ => false
  end.

(** *** The stage functions *)

Definition modelId : string := "gemini-3-flash-preview".

(** Three double quotes, the fence around the lecture text. *)
Definition fence : string := dq ++ dq ++ dq.

Definition topicsPrompt (lectureText : string) : string :=
  join nl
    [ "Analyze the following university-level lecture content.";
      "Your task:";
      "1. Extract main topics.";
      "2. Extract subtopics for each topic.";
      "3. Assign a difficulty level from 1 (basic) to 5 (advanced).";
      "4. Estimate importance score from 1-10.";
      "5. Return structured JSON.";
      EmptyString;
      "Lecture Content:";
      fence;
      lectureText;
      fence ].

Definition summaryPrompt (text : string) : string :=
  join nl
    [ "Provide a high-level academic summary of this lecture. ";
      "Your response must be structured JSON.";
      EmptyString;
      "Text:";
      fence;
      text;
      fence ].

Definition graphPrompt (text : string) : string :=
  join nl
    [ "Extract entities and relationships from the following academic text. Return structured JSON.";
      EmptyString;
      "Text:";
      fence;
      text;
      fence ].

Definition topicsRequest (lectureText : string) : Request :=
  {| model := modelId; contents := topicsPrompt lectureText;
     config := TopicsContract |}.

Definition summaryRequest (text : string) : Request :=
  {| model := modelId; contents := summaryPrompt text;
     config := SummaryContract |}.

Definition graphRequest (text : string) : Request :=
  {| model := modelId; contents := graphPrompt text;
     config := GraphContract |}.

Definition extractTopics (sv : Service) (lectureText : string)
    : M (Result (option JsError) TopicExtractionResponse) :=
  withRetry sv (generateContent (reply_topics sv) (topicsRequest lectureText))
    defaultMaxRetries.

Definition generateGeneralSummary (sv : Service) (text : string)
    : M (Result (option JsError) SummaryResponse) :=
  withRetry sv (generateContent (reply_summary sv) (summaryRequest text))
    defaultMaxRetries.

Definition extractKnowledgeGraph (sv : Service) (text : string)
    : M (Result (option JsError) KnowledgeGraphResponse) :=
  withRetry sv (generateContent (reply_graph sv) (graphRequest text))
    defaultMaxRetries.

(** *** generateQuiz *)

(** The optional second argument [{ score, total }]. *)
Record AdaptiveContext := { ctx_score : nat; ctx_total : nat }.

Definition Qlt_bool (x y : Q) : bool := negb (Qle_bool y x).

(** [adaptiveContext.score < adaptiveContext.total / 2]: the division is the
    real one, not the integer one. *)
Definition belowHalf (c : AdaptiveContext) : bool :=
  Qlt_bool (inject_Z (Z.of_nat (ctx_score c)))
           (inject_Z (Z.of_nat (ctx_total c)) / 2)%Q.

Definition easierDirective (c : AdaptiveContext) : string :=
  "The student answered " ++ ofNat (ctx_score c) ++ "/" ++ ofNat (ctx_total c)
  ++ " questions incorrectly. Regenerate 5 easier questions focusing on fundamentals.".

Definition advancedDirective (c : AdaptiveContext) : string :=
  "The student answered " ++ ofNat (ctx_score c) ++ "/" ++ ofNat (ctx_total c)
  ++ " correctly. Generate 5 advanced-level application-based questions (scenario-based).".

(** The value of [adaptivePrompt] once the two [if]s have run. *)
Definition adaptivePrompt (adaptiveContext : option AdaptiveContext) : string :=
  match adaptiveContext with
  | None => EmptyString
  | Some c =>
      if belowHalf c then easierDirective c
      else if (ctx_score c =? ctx_total c)%nat then advancedDirective c
      else EmptyString
  end.

Definition subtopicLine (s : Subtopic) : string :=
  "- " ++ sub_title s ++ ": " ++ join ", " (key_concepts s).

(** Everything of [contents] after [${adaptivePrompt}]. *)
Definition quizBody (topic : Topic) : string :=
  nl ++
  join nl
    [ "Generate 5 multiple-choice questions for the following topic.";
      "Rules:";
      "- Questions must test understanding, not memorization.";
      "- Include one clearly correct answer.";
      "- Distractors must be plausible.";
      "- Difficulty level must match the given difficulty.";
      "- Avoid ambiguous phrasing.";
      EmptyString;
      "Topic:";
      "Title: " ++ title topic;
      "Difficulty: " ++ ofNat (difficulty_level topic);
      "Summary: " ++ summary topic;
      EmptyString;
      "Subtopics:";
      join nl (map subtopicLine (subtopics topic)) ].

Definition quizRequest (topic : Topic)
    (adaptiveContext : option AdaptiveContext) : Request :=
  {| model := modelId;
     contents := adaptivePrompt adaptiveContext ++ quizBody topic;
     config := QuizContract |}.

(** The parsed payload is returned as it is: no check follows
    [JSON.parse]. *)
Definition generateQuiz (sv : Service) (topic : Topic)
    (adaptiveContext : option AdaptiveContext)
    : M (Result (option JsError) QuizResponse) :=
  withRetry sv
    (generateContent (reply_quiz sv) (quizRequest topic adaptiveContext))
    defaultMaxRetries.

End Gemini.

(* ================================================================= *)
(** ** components/QuizView.tsx *)

Module QuizView.

Import Js Types Gemini.
Local Open Scope io_scope.

(** The prop [questions] (the parent's [currentQuiz]) and the six
    [useState] cells of the component. *)
Record State := {
  questions : list QuizQuestion;
  currentIdx : nat;
  selectedOption : option string;
  isAnswered : bool;
  score : nat;
  isFinishing : bool;
  isAdapting : bool
}.

(** State of a freshly mounted component. *)
Definition initial (qs : list QuizQuestion) : State :=
  {| questions := qs; currentIdx := 0; selectedOption := None;
     isAnswered := false; score := 0; isFinishing := false;
     isAdapting := false |}.

Definition setCurrentIdx (v : nat) (s : State) : State :=
  {| questions := questions s; currentIdx := v;
     selectedOption := selectedOption s; isAnswered := isAnswered s;
     score := score s; isFinishing := isFinishing s;
     isAdapting := isAdapting s |}.

Definition setSelectedOption (v : option string) (s : State) : State :=
  {| questions := questions s; currentIdx := currentIdx s;
     selectedOption := v; isAnswered := isAnswered s;
     score := score s; isFinishing := isFinishing s;
     isAdapting := isAdapting s |}.

Definition setIsAnswered (v : bool) (s : State) : State :=
  {| questions := questions s; currentIdx := currentIdx s;
     selectedOption := selectedOption s; isAnswered := v;
     score := score s; isFinishing := isFinishing s;
     isAdapting := isAdapting s |}.

Definition setScore (v : nat) (s : State) : State :=
  {| questions := questions s; currentIdx := currentIdx s;
     selectedOption := selectedOption s; isAnswered := isAnswered s;
     score := v; isFinishing := isFinishing s;
     isAdapting := isAdapting s |}.

Definition setIsFinishing (v : bool) (s : State) : State :=
  {| questions := questions s; currentIdx := currentIdx s;
     selectedOption := selectedOption s; isAnswered := isAnswered s;
     score := score s; isFinishing := v;
     isAdapting := isAdapting s |}.

Definition setIsAdapting (v : bool) (s : State) : State :=
  {| questions := questions s; currentIdx := currentIdx s;
     selectedOption := selectedOption s; isAnswered := isAnswered s;
     score := score s; isFinishing := isFinishing s;
     isAdapting := v |}.

(** The prop callback [onRetake]: the parent runs [setCurrentQuiz(newQ)]. *)
Definition onRetake (newQuestions : list QuizQuestion) (s : State) : State :=
  {| questions := newQuestions; currentIdx := currentIdx s;
     selectedOption := selectedOption s; isAnswered := isAnswered s;
     score := score s; isFinishing := isFinishing s;
     isAdapting := isAdapting s |}.

(** [questions[currentIdx]]; [None] is [undefined]. *)
Definition currentQuestion (s : State) : option QuizQuestion :=
  nth_error (questions s) (currentIdx s).

(** How a synchronous handler ends: it returns, or a [TypeError] leaves it
    after the updates queued so far. *)
Inductive Handled :=
| Returned (s : State)
| TypeErrorAfter (s : State).

Definition stateOf (h : Handled) : State :=
  match h with
  | Returned s => s
  | TypeErrorAfter s => s
  end.

Definition handleOptionClick (option : string) (s : State) : State :=
  if isAnswered s then s else setSelectedOption (Some option) s.

(** [!selectedOption] holds for [null] and for the empty string. *)
Definition handleSubmit (s : State) : Handled :=
  match selectedOption s with
  | None => Returned s
  | Some sel =>
      if negb (truthy sel) then Returned s
      else
        let s1 := setIsAnswered true s in
        match currentQuestion s with
        | None => TypeErrorAfter s1
        | Some q =>
            if String.eqb sel (correct_answer q)
            then Returned (setScore (score s1 + 1) s1)
            else Returned s1
        end
  end.

(** [questions.length - 1] with the truncated subtraction of [nat]: for an
    empty list both [currentIdx < -1] and [currentIdx < 0] are false. *)
Definition handleNext (s : State) : State :=
  if (currentIdx s <? length (questions s) - 1)%nat then
    setIsAnswered false (setSelectedOption None (setCurrentIdx (currentIdx s + 1) s))
  else setIsFinishing true s.

(** The [try] / [catch] / [finally] of [handleAdaptiveRetake].  [score] and
    [questions.length] are those of the render that created the handler. *)
Definition handleAdaptiveRetake (sv : Service) (topic : Topic) (s : State)
    : M State :=
  let s0 := setIsAdapting true s in
  r <- generateQuiz sv topic
         (Some {| ctx_score := score s; ctx_total := length (questions s) |}) ;;
  match r with
  | Ok resp =>
      ret (setIsAdapting false
            (setIsFinishing false
              (setScore 0
                (setIsAnswered false
                  (setSelectedOption None
                    (setCurrentIdx 0
                      (onRetake (quiz resp) s0)))))))
  | Throw err =>
      emit (EvConsoleError err) ;;;
      ret (setIsAdapting false s0)
  end.

(** *** What the rendered view offers *)

(** Clicks on the buttons of the component.  "Back to Topics" unmounts the
    component and is not an event of the session. *)
Inductive UiEvent :=
| ClickOption (option : string)   (* an option button: handleOptionClick *)
| ClickSubmit                     (* "Check Answer": handleSubmit *)
| ClickNext                       (* "Next Question" / "View Results": handleNext *)
| ClickRetake.                    (* "Try Adaptive Mode": handleAdaptiveRetake *)

Definition inb (x : string) (xs : list string) : bool :=
  existsb (String.eqb x) xs.

(** Which button exists and is not [disabled] in the view rendered from
    [s].  With [isFinishing] only the result screen is rendered; otherwise
    the question screen, whose rendering fails when [questions[currentIdx]]
    is [undefined]. *)
Definition enabled (s : State) (ev : UiEvent) : bool :=
  if isFinishing s then
    match ev with
    | ClickRetake => negb (isAdapting s)
    | _ => false
    end
  else
    match currentQuestion s with
    | None => false
    | Some q =>
        match ev with
        | ClickOption o => inb o (options q) && negb (isAnswered s)
        | ClickSubmit =>
            negb (isAnswered s) &&
            match selectedOption s with
            | None => false
            | Some sel => truthy sel
            end
        | ClickNext => isAnswered s
        | ClickRetake => false
        end
    end.

(** One click: the handler runs when its button is offered, and nothing
    happens otherwise. *)
Definition dispatch (sv : Service) (topic : Topic) (sw : State * World)
    (ev : UiEvent) : State * World :=
  let (s, w) := sw in
  if enabled s ev then
    match ev with
    | ClickOption o => (handleOptionClick o s, w)
    | ClickSubmit => (stateOf (handleSubmit s), w)
    | ClickNext => (handleNext s, w)
    | ClickRetake => handleAdaptiveRetake sv topic s w
    end
  else (s, w).

Definition runEvents (sv : Service) (topic : Topic) (evs : list UiEvent)
    (sw : State * World) : State * World :=
  fold_left (dispatch sv topic) evs sw.


(** The three states of the assessment state machine, read off the cells. *)
Inductive Phase :=
| Presenting (index : nat)
| Answered (index : nat) (selection : option string)
| Completed (finalScore : nat).

Definition phase (s : State) : Phase :=
  if isFinishing s then Completed (score s)
  else if isAnswered s then Answered (currentIdx s) (selectedOption s)
  else Presenting (currentIdx s).

End QuizView.

(* ================================================================= *)
(** ** components/FlashcardsView.tsx *)

Module FlashcardsView.

Import Js Types.
Local Open Scope Z_scope.

(** The updaters passed to [setCurrentIdx] by the two timers. *)
Inductive IdxUpdate := StepNext | StepPrev.

(** The prop [flashcards], the two [useState] cells, and the updates
    scheduled by [setTimeout(..., 150)] that have not run yet, oldest
    first. *)
Record State := {
  flashcards : list Flashcard;
  currentIdx : Num;
  isFlipped : bool;
  pending : list IdxUpdate
}.

Definition initial (cards : list Flashcard) : State :=
  {| flashcards := cards; currentIdx := Some 0; isFlipped := false;
     pending := [] |}.

(** [flashcards.length]. *)
Definition len (s : State) : Num := Some (Z.of_nat (length (flashcards s))).

(** [(prev) => (prev + 1) % flashcards.length]. *)
Definition nextIdx (L prev : Num) : Num := rem (add prev (Some 1)) L.

(** [(prev) => (prev - 1 + flashcards.length) % flashcards.length]. *)
Definition prevIdx (L prev : Num) : Num := rem (add (sub prev (Some 1)) L) L.

Definition handleNext (s : State) : State :=
  {| flashcards := flashcards s; currentIdx := currentIdx s;
     isFlipped := false; pending := pending s ++ [StepNext] |}.

Definition handlePrev (s : State) : State :=
  {| flashcards := flashcards s; currentIdx := currentIdx s;
     isFlipped := false; pending := pending s ++ [StepPrev] |}.

(** The click on the card: [setIsFlipped(!isFlipped)]. *)
Definition flip (s : State) : State :=
  {| flashcards := flashcards s; currentIdx := currentIdx s;
     isFlipped := negb (isFlipped s); pending := pending s |}.

Definition applyUpdate (u : IdxUpdate) (L prev : Num) : Num :=
  match u with
  | StepNext => nextIdx L prev
  | StepPrev => prevIdx L prev
  end.

(** The oldest timer fires and its updater is applied to the current
    index. *)
Definition timerFires (s : State) : State :=
  match pending s with
  | [] => s
  | u :: rest =>
      {| flashcards := flashcards s;
         currentIdx := applyUpdate u (len s) (currentIdx s);
         isFlipped := isFlipped s; pending := rest |}
  end.

(** The next and previous operations, each with its timer run. *)
Definition next (s : State) : State := timerFires (handleNext s).
Definition previous (s : State) : State := timerFires (handlePrev s).

Inductive Action := Next | Prev | Flip | Timer.

Definition act (s : State) (a : Action) : State :=
  match a with
  | Next => handleNext s
  | Prev => handlePrev s
  | Flip => flip s
  | Timer => timerFires s
  end.

End FlashcardsView.

(* ================================================================= *)
(** ** App.tsx *)

Module App.

Import Js Types Gemini.
Local Open Scope string_scope.
Local Open Scope io_scope.

(** The [useState] cells of the component. *)
Record State := {
  lectureText : string;
  appState : AppState;
  topics : list Topic;
  currentQuiz : list QuizQuestion;
  kgData : option KnowledgeGraphResponse;
  summaryData : option SummaryResponse;
  selectedTopic : option Topic;
  loadingMsg : string;
  uploadedFileName : option string;
  isProcessingFile : bool
}.

(** State of a freshly mounted application. *)
Definition initial : State :=
  {| lectureText := EmptyString; appState := IDLE; topics := [];
     currentQuiz := []; kgData := None; summaryData := None;
     selectedTopic := None; loadingMsg := EmptyString;
     uploadedFileName := None; isProcessingFile := false |}.

Definition setAppState (v : AppState) (a : State) : State :=
  {| lectureText := lectureText a; appState := v; topics := topics a;
     currentQuiz := currentQuiz a; kgData := kgData a;
     summaryData := summaryData a; selectedTopic := selectedTopic a;
     loadingMsg := loadingMsg a; uploadedFileName := uploadedFileName a;
     isProcessingFile := isProcessingFile a |}.

Definition setTopics (v : list Topic) (a : State) : State :=
  {| lectureText := lectureText a; appState := appState a; topics := v;
     currentQuiz := currentQuiz a; kgData := kgData a;
     summaryData := summaryData a; selectedTopic := selectedTopic a;
     loadingMsg := loadingMsg a; uploadedFileName := uploadedFileName a;
     isProcessingFile := isProcessingFile a |}.

Definition setCurrentQuiz (v : list QuizQuestion) (a : State) : State :=
  {| lectureText := lectureText a; appState := appState a; topics := topics a;
     currentQuiz := v; kgData := kgData a;
     summaryData := summaryData a; selectedTopic := selectedTopic a;
     loadingMsg := loadingMsg a; uploadedFileName := uploadedFileName a;
     isProcessingFile := isProcessingFile a |}.

Definition setKgData (v : option KnowledgeGraphResponse) (a : State) : State :=
  {| lectureText := lectureText a; appState := appState a; topics := topics a;
     currentQuiz := currentQuiz a; kgData := v;
     summaryData := summaryData a; selectedTopic := selectedTopic a;
     loadingMsg := loadingMsg a; uploadedFileName := uploadedFileName a;
     isProcessingFile := isProcessingFile a |}.

Definition setSummaryData (v : option SummaryResponse) (a : State) : State :=
  {| lectureText := lectureText a; appState := appState a; topics := topics a;
     currentQuiz := currentQuiz a; kgData := kgData a;
     summaryData := v; selectedTopic := selectedTopic a;
     loadingMsg := loadingMsg a; uploadedFileName := uploadedFileName a;
     isProcessingFile := isProcessingFile a |}.

Definition setSelectedTopic (v : option Topic) (a : State) : State :=
  {| lectureText := lectureText a; appState := appState a; topics := topics a;
     currentQuiz := currentQuiz a; kgData := kgData a;
     summaryData := summaryData a; selectedTopic := v;
     loadingMsg := loadingMsg a; uploadedFileName := uploadedFileName a;
     isProcessingFile := isProcessingFile a |}.

Definition setLoadingMsg (v : string) (a : State) : State :=
  {| lectureText := lectureText a; appState := appState a; topics := topics a;
     currentQuiz := currentQuiz a; kgData := kgData a;
     summaryData := summaryData a; selectedTopic := selectedTopic a;
     loadingMsg := v; uploadedFileName := uploadedFileName a;
     isProcessingFile := isProcessingFile a |}.

Definition quotaAlert : string :=
  "API Quota Exceeded. Please wait a minute and try again. Switch to a paid key for higher limits.".

Definition failedAlert : string :=
  "Analysis failed. Please try again with different content.".

(** How a run of an asynchronous handler ends.  [seen] lists the states
    React has committed during the run, oldest first: one at each [await]
    of a stage and one when the handler is left.  [uncaught] tells that the
    [catch] clause was itself left by a [TypeError]. *)
Record Run := {
  final : State;
  seen : list State;
  uncaught : bool
}.

(** The [catch (err)] clause of [runPipeline], entered in state [a].
    Reading [err.message] of [undefined] raises a [TypeError] after
    [console.error(err)], before any setter is reached. *)
Definition pipelineCatch (err : option JsError) (a : State)
    (before : list State) : M Run :=
  emit (EvConsoleError err) ;;;
  match err with
  | None => ret {| final := a; seen := before; uncaught := true |}
  | Some e =>
      emit (EvAlert (if isQuotaError e then quotaAlert else failedAlert)) ;;;
      let a' := setAppState IDLE a in
      ret {| final := a'; seen := before ++ [a']; uncaught := false |}
  end.

Definition runPipeline (sv : Service) (text : string) (a : State) : M Run :=
  if negb (truthy (trim text)) then
    ret {| final := a; seen := []; uncaught := false |}
  else
    (* Step 1: Summary *)
    let a1 := setLoadingMsg "Distilling Core Intelligence..."
                (setAppState ANALYZING a) in
    r1 <- generateGeneralSummary sv text ;;
    match r1 with
    | Throw err => pipelineCatch err a1 [a1]
    | Ok summaryResp =>
        (* Step 2: Knowledge Graph *)
        let a2 := setLoadingMsg "Mapping Semantic Relationships..."
                    (setSummaryData (Some summaryResp) a1) in
        r2 <- extractKnowledgeGraph sv text ;;
        match r2 with
        | Throw err => pipelineCatch err a2 [a1; a2]
        | Ok kgResp =>
            (* Step 3: Topics *)
            let a3 := setLoadingMsg "Deconstructing Lecture Architecture..."
                        (setKgData (Some kgResp) a2) in
            r3 <- extractTopics sv text ;;
            match r3 with
            | Throw err => pipelineCatch err a3 [a1; a2; a3]
            | Ok topicResp =>
                let a4 := setAppState SUMMARY_VIEW
                            (setTopics (topics_of topicResp) a3) in
                ret {| final := a4; seen := [a1; a2; a3; a4];
                       uncaught := false |}
            end
        end
    end.

Definition handleStartQuiz (sv : Service) (topic : Topic) (a : State)
    : M State :=
  let a1 := setSelectedTopic (Some topic)
              (setLoadingMsg
                 ("Generating Mastery Assessment for " ++ dq ++ title topic
                  ++ dq ++ "...")
                 (setAppState ANALYZING a)) in
  r <- generateQuiz sv topic None ;;
  match r with
  | Ok resp => ret (setAppState QUIZ_VIEW (setCurrentQuiz (quiz resp) a1))
  | Throw err =>
      emit (EvConsoleError err) ;;;
      ret (setAppState TOPICS_VIEW a1)
  end.

(** *** What the rendered page shows *)

(** The artifacts that the JSX of [App] puts on the page in a given state:
    the summary panel, the topic cards, the graph panel, the quiz, and the
    topic count of the sidebar. *)
Record Page := {
  shownSummary : option SummaryResponse;
  shownTopics : option (list Topic);
  shownGraph : option KnowledgeGraphResponse;
  shownQuiz : option (list QuizQuestion);
  sidebarCount : option nat
}.

Definition blankPage : Page :=
  {| shownSummary := None; shownTopics := None; shownGraph := None;
     shownQuiz := None; sidebarCount := None |}.

Definition render (a : State) : Page :=
  {| shownSummary :=
       match appState a with SUMMARY_VIEW => summaryData a | _ => None end;
     shownTopics :=
       match appState a with TOPICS_VIEW => Some (topics a) | _ => None end;
     shownGraph :=
       match appState a with KG_VIEW => kgData a | _ => None end;
     shownQuiz :=
       match appState a, selectedTopic a with
       | QUIZ_VIEW, Some _ => Some (currentQuiz a)
       | _, _ => None
       end;
     sidebarCount :=
       match appState a with
       | IDLE | ANALYZING => None
       | _ => Some (length (topics a))
       end |}.

(** The artifacts a state holds, shown or not. *)
Definition holdsNoArtifact (a : State) : Prop :=
  summaryData a = None /\ kgData a = None /\ topics a = [].

(** *** The stage calls of a run, one after the other *)

(** What each stage call of a run started in world [w] returns, and the
    world it leaves, when the stages before it have returned. *)
Definition summaryStage (sv : Service) (text : string) (w : World) :=
  generateGeneralSummary sv text w.

Definition graphStage (sv : Service) (text : string) (w : World) :=
  extractKnowledgeGraph sv text (snd (summaryStage sv text w)).

Definition topicsStage (sv : Service) (text : string) (w : World) :=
  extractTopics sv text (snd (graphStage sv text w)).

(** All three stage calls of the run return a value. *)
Definition allSucceed (sv : Service) (text : string) (w : World) : bool :=
  isOk (fst (summaryStage sv text w)) &&
  isOk (fst (graphStage sv text w)) &&
  isOk (fst (topicsStage sv text w)).

(** The text passes the guard [if (!text.trim()) return]. *)
Definition nonBlank (text : string) : bool := truthy (trim text).

End App.

(* ================================================================= *)
(** ** Concrete services, payloads and states *)

Module Samples.

Import Js Types Gemini.
Local Open Scope string_scope.

Definition w0 : World := {| w_calls := 0; w_draws := 0; w_log := [] |}.

Definition rateLimited : JsError :=
  {| err_name := "ApiError";
     message := Some "got status: 429 Too Many Requests" |}.

Definition exhausted : JsError :=
  {| err_name := "ApiError";
     message := Some "RESOURCE_EXHAUSTED: quota exceeded" |}.

Definition generic : JsError :=
  {| err_name := "TypeError"; message := Some "fetch failed" |}.

Definition sampleSummary : SummaryResponse :=
  {| overview := "Sorting"; key_takeaways := ["Merge sort is stable"];
     detailed_summary := "Comparison sorts." |}.

Definition sampleGraph : KnowledgeGraphResponse :=
  {| entities := [ {| ent_id := "e1"; ent_type := method; ent_name := "Merge sort" |} ];
     relationships := [] |}.

Definition sampleTopic : Topic :=
  {| topic_id := "t1"; title := "Sorting"; summary := "Comparison sorts";
     difficulty_level := 2; importance_score := 7;
     subtopics := [ {| sub_title := "Merge sort";
                       key_concepts := ["divide"; "merge"] |} ] |}.

Definition sampleTopics : TopicExtractionResponse :=
  {| topics_of := [sampleTopic] |}.

Definition goodQuestion : QuizQuestion :=
  {| question_id := "q1"; question := "Which sort is stable?";
     difficulty := 2; options := ["Merge sort"; "Heap sort"];
     correct_answer := "Merge sort"; explanation := "Merging keeps order." |}.

(** A payload that the response schema admits and whose [correct_answer]
    is none of its [options]. *)
Definition strayQuestion : QuizQuestion :=
  {| question_id := "q2"; question := "Which sort is stable?";
     difficulty := 2; options := ["Merge sort"; "Heap sort"];
     correct_answer := "Quick sort"; explanation := "None." |}.

(** A question one of whose options, the correct one, is the empty
    string. *)
Definition blankOptionQuestion : QuizQuestion :=
  {| question_id := "q3"; question := "What does an empty file contain?";
     difficulty := 1; options := [EmptyString; "A newline"];
     correct_answer := EmptyString; explanation := "Nothing at all." |}.

Definition half : Q := (1 # 2)%Q.

(** Every request is answered at once. *)
Definition svAllOk (qs : list QuizQuestion) : Service :=
  {| reply_topics := fun _ _ => Ok sampleTopics;
     reply_summary := fun _ _ => Ok sampleSummary;
     reply_quiz := fun _ _ => Ok {| quiz := qs |};
     reply_graph := fun _ _ => Ok sampleGraph;
     random := fun _ => half |}.

(** The summary is answered, the knowledge graph fails with an error that
    carries no quota marker. *)
Definition svGraphFails : Service :=
  {| reply_topics := fun _ _ => Ok sampleTopics;
     reply_summary := fun _ _ => Ok sampleSummary;
     reply_quiz := fun _ _ => Ok {| quiz := [goodQuestion] |};
     reply_graph := fun _ _ => Throw generic;
     random := fun _ => half |}.

(** The first [n] requests of the session are rate limited, the later ones
    answered. *)
Definition svRateLimitedFirst (n : nat) : Service :=
  {| reply_topics := fun k _ => if (k <? n)%nat then Throw rateLimited else Ok sampleTopics;
     reply_summary := fun k _ => if (k <? n)%nat then Throw exhausted else Ok sampleSummary;
     reply_quiz := fun k _ =>
       if (k <? n)%nat then Throw rateLimited else Ok {| quiz := [goodQuestion] |};
     reply_graph := fun k _ => if (k <? n)%nat then Throw rateLimited else Ok sampleGraph;
     random := fun _ => half |}.

(** The knowledge-graph requests that are the second and third requests of
    the session are rate limited; every other request is answered. *)
Definition svGraphRateLimitedTwice : Service :=
  {| reply_topics := fun _ _ => Ok sampleTopics;
     reply_summary := fun _ _ => Ok sampleSummary;
     reply_quiz := fun _ _ => Ok {| quiz := [goodQuestion] |};
     reply_graph := fun k _ => if (k <? 3)%nat then Throw rateLimited else Ok sampleGraph;
     random := fun _ => half |}.



Definition card (n : string) : Flashcard :=
  {| fc_id := n; front := "front " ++ n; back := "back " ++ n |}.

Definition deck3 : FlashcardsView.State :=
  {| FlashcardsView.flashcards := [card "a"; card "b"; card "c"];
     FlashcardsView.currentIdx := Some 2%Z;
     FlashcardsView.isFlipped := true;
     FlashcardsView.pending := [] |}.

End Samples.

(* ================================================================= *)
(** ** Measures on traces *)

Module Trace.

Import Gemini.

(** The sum of a list of delays, in milliseconds. *)
Definition total (ds : list Q) : Q := fold_right Qplus 0%Q ds.


(** The messages shown to the user by [alert], in order. *)
Fixpoint alertsOf (evs : list Event) : list string :=
  match evs with
  | [] => []
  | EvAlert msg :: rest => msg :: alertsOf rest
  | _ :: rest => alertsOf rest
  end.

(** Every character of a text is white space (so is the empty text). *)
Fixpoint allWhite (s : string) : bool :=
  match s with
  | EmptyString => true
  | String c s' => Js.isWhite c && allWhite s'
  end.

End Trace.

(* ================================================================= *)
(** ** Further concrete services and payloads *)

Module MoreSamples.

Import Js Types Gemini.
Local Open Scope string_scope.

(** Every request of the session is answered with a quota error. *)
Definition svQuotaForever : Service :=
  {| reply_topics := fun _ _ => Throw Samples.rateLimited;
     reply_summary := fun _ _ => Throw Samples.exhausted;
     reply_quiz := fun _ _ => Throw Samples.rateLimited;
     reply_graph := fun _ _ => Throw Samples.rateLimited;
     random := fun _ => Samples.half |}.

End MoreSamples.

(* ================================================================= *)
(** ** Playing a quiz through *)

Module Play.

Import Js Types Gemini QuizView.

(** The clicks of a user who, question after question, picks an option,
    checks it and goes on. *)
Definition answerAll (answers : list string) : list UiEvent :=
  flat_map (fun a => [ClickOption a; ClickSubmit; ClickNext]) answers.

(** How many of the answers are the [correct_answer] of the question at the
    same position. *)
Fixpoint correctCount (qs : list QuizQuestion) (answers : list string) : nat :=
  match qs, answers with
  | q :: qs', a :: answers' =>
      (if String.eqb a (correct_answer q) then 1 else 0)
      + correctCount qs' answers'
  | _, _ => 0
  end.

(** An answer the page lets the user pick and check: one of the options of
    the question, and not the empty string. *)
Definition answerable (q : QuizQuestion) (a : string) : Prop :=
  In a (options q) /\ truthy a = true.

End Play.

(* ================================================================= *)
(** ** Counting deck moves *)

Module Moves.

Import FlashcardsView.
Local Open Scope Z_scope.

(** The net move of a list of scheduled updates: forward steps minus
    backward steps. *)
Fixpoint net (us : list IdxUpdate) : Z :=
  match us with
  | [] => 0
  | StepNext :: rest => 1 + net rest
  | StepPrev :: rest => -1 + net rest
  end.

(** The net move asked for by a list of actions: clicks on next minus clicks
    on previous. *)
Fixpoint clicks (acts : list Action) : Z :=
  match acts with
  | [] => 0
  | Next :: rest => 1 + clicks rest
  | Prev :: rest => -1 + clicks rest
  | _ :: rest => clicks rest
  end.

End Moves.

(* ================================================================= *)
(** ** services/fileService.ts *)

Module FileService.

Import Js Types Gemini.
Local Open Scope string_scope.

(** *** More JavaScript primitives *)

(** [c.toLowerCase()] on a code unit below 256: the letters A-Z, and the
    Latin-1 capitals U+00C0-U+00DE except the multiplication sign U+00D7. *)
Definition lowerChar (c : ascii) : ascii :=
  let n := nat_of_ascii c in
  if (((65 <=? n) && (n <=? 90))
      || ((192 <=? n) && (n <=? 222) && negb (n =? 215)))%nat
  then ascii_of_nat (n + 32) else c.

Fixpoint toLowerCase (s : string) : string :=
  match s with
  | EmptyString => EmptyString
  | String c s' => String (lowerChar c) (toLowerCase s')
  end.

(** [s.split(sep)] for a separator of one character: never empty. *)
Fixpoint split (sep : ascii) (s : string) : list string :=
  match s with
  | EmptyString => [EmptyString]
  | String c s' =>
      if Ascii.eqb c sep then EmptyString :: split sep s'
      else match split sep s' with
           | [] => [String c EmptyString]
           | piece :: pieces => String c piece :: pieces
           end
  end.

(** [xs.pop()]: the last element, [undefined] ([None]) on an empty array. *)
Fixpoint pop (xs : list string) : option string :=
  match xs with
  | [] => None
  | [x] => Some x
  | _ :: rest => pop rest
  end.

(** [s.startsWith(p)] and [s.endsWith(p)]. *)
Definition startsWith (s p : string) : bool := String.prefix p s.

Definition endsWith (s p : string) : bool :=
  (String.length p <=? String.length s)%nat &&
  String.eqb (substring (String.length s - String.length p) (String.length p) s) p.

(** [\d]. *)
Definition isDigit (c : ascii) : bool :=
  let n := nat_of_ascii c in ((48 <=? n) && (n <=? 57))%nat.

(** [s.replace(/[^\d]/g, '')]: the digits of [s], in order. *)
Fixpoint digitsOf (s : string) : string :=
  match s with
  | EmptyString => EmptyString
  | String c s' => if isDigit c then String c (digitsOf s') else digitsOf s'
  end.

(** The value of a string of digits read from the left, [acc] being the
    value of the digits already read. *)
Fixpoint digitsValue (acc : Z) (s : string) : Z :=
  match s with
  | EmptyString => acc
  | String c s' => digitsValue (10 * acc + Z.of_nat (nat_of_ascii c - 48)) s'
  end.

(** [parseInt(s, 10)] on a string of digits: [NaN] when it is empty.  The
    value is taken exactly. *)
Definition parseDigits (s : string) : Num :=
  match s with
  | EmptyString => None
  | _ => Some (digitsValue 0 s)
  end.

(** The digits at the head of a string. *)
Fixpoint leadingDigits (s : string) : string :=
  match s with
  | EmptyString => EmptyString
  | String c s' => if isDigit c then String c (leadingDigits s') else EmptyString
  end.

(** [s.match(/\d+/)?.[0]]: the first run of digits, [undefined] when there is
    no digit. *)
Fixpoint firstDigits (s : string) : option string :=
  match s with
  | EmptyString => None
  | String c s' => if isDigit c then Some (leadingDigits s) else firstDigits s'
  end.

(** [`${x}`] for a string that may be [undefined]. *)
Definition showOpt (x : option string) : string :=
  match x with
  | Some s => s
  | None => "undefined"
  end.

(** [x || ''] for a string that may be [null]. *)
Definition orEmpty (x : option string) : string :=
  match x with
  | Some s => s
  | None => EmptyString
  end.

(** [xs.sort(compare)].  The sort is stable; [compare a b > 0] puts [a]
    after [b], and a result that is [NaN] counts as 0.  Shown as the
    insertion of each element, in order, behind the elements that do not
    have to come after it: for a comparator that is consistent this is the
    order every stable sort produces. *)
Definition after (compare : string -> string -> Num) (a b : string) : bool :=
  match compare a b with
  | Some v => (0 <? v)%Z
  | None => false
  end.

Fixpoint insertSorted (compare : string -> string -> Num) (x : string)
    (sorted : list string) : list string :=
  match sorted with
  | [] => [x]
  | y :: rest =>
      if after compare y x then x :: y :: rest
      else y :: insertSorted compare x rest
  end.

Definition sort (compare : string -> string -> Num) (xs : list string)
    : list string :=
  fold_left (fun sorted x => insertSorted compare x sorted) xs [].

(** *** Files *)

(** An entry of a zip archive: its path, and the [textContent] of the
    [a:t] elements that [DOMParser] finds in it, in document order. *)
Record ZipEntry := { path : string; texts : list (option string) }.

(** A [File]: its name, and what each of the three readers makes of its
    bytes.  [readerText] is the result [FileReader.readAsText] loads, [None]
    when it fires [onerror]; [pdfPages] is what pdf.js yields, page by page
    the [str] of the text items, or the error it rejects with; [zipEntries]
    are the entries [JSZip.loadAsync] finds, in the order of [Object.keys]
    (their paths are distinct, as keys are), or the error it rejects with. *)
Record File := {
  name : string;
  readerText : option string;
  pdfPages : Result JsError (list (list string));
  zipEntries : Result JsError (list ZipEntry)
}.

(** What [reader.onerror = reject] rejects with: an event, which has no
    [message]. *)
Definition progressEvent : JsError :=
  {| err_name := "ProgressEvent"; message := None |}.

Definition unsupportedFormat : JsError :=
  {| err_name := "Error"; message := Some "Unsupported file format" |}.

Definition noTextContent : JsError :=
  {| err_name := "Error";
     message := Some "No text content found in PPTX file." |}.

Definition readFileAsText (file : File) : Result JsError string :=
  match readerText file with
  | Some result => Ok result
  | None => Throw progressEvent
  end.

(** The loop over the pages: [fullText += strings.join(' ') + '\n']. *)
Definition pdfText (pages : list (list string)) : string :=
  fold_left (fun fullText strings => fullText ++ join " " strings ++ nl)
            pages EmptyString.

Definition extractTextFromPDF (file : File) : Result JsError string :=
  match pdfPages file with
  | Throw err => Throw err
  | Ok pages => Ok (pdfText pages)
  end.

(** The filter on the names of the archive. *)
Definition isSlide (name : string) : bool :=
  startsWith name "ppt/slides/slide" && endsWith name ".xml".

(** The comparator of the sort: the difference of the numbers made of all
    the digits of the two names. *)
Definition bySlideNumber (a b : string) : Num :=
  sub (parseDigits (digitsOf a)) (parseDigits (digitsOf b)).

Definition slideFiles (entries : list ZipEntry) : list string :=
  sort bySlideNumber (filter isSlide (map path entries)).

(** [zip.files[slidePath]], parsed: the texts of the entry of that path. *)
Definition textsAt (entries : list ZipEntry) (slidePath : string)
    : list (option string) :=
  match find (fun e => String.eqb (path e) slidePath) entries with
  | Some e => texts e
  | None => []
  end.

(** The inner loop: [slideText += (textNodes[i].textContent || '') + ' ']. *)
Definition slideText (nodes : list (option string)) : string :=
  fold_left (fun acc t => acc ++ orEmpty t ++ " ") nodes EmptyString.

(** What one slide adds to [fullText]. *)
Definition slideBlock (entries : list ZipEntry) (slidePath : string) : string :=
  "--- Slide " ++ showOpt (firstDigits slidePath) ++ " ---" ++ nl
  ++ slideText (textsAt entries slidePath) ++ nl ++ nl.

Definition pptxText (entries : list ZipEntry) : string :=
  fold_left (fun fullText slidePath => fullText ++ slideBlock entries slidePath)
            (slideFiles entries) EmptyString.

Definition extractTextFromPPTX (file : File) : Result JsError string :=
  match zipEntries file with
  | Throw err => Throw err
  | Ok entries =>
      let fullText := pptxText entries in
      if negb (truthy (trim fullText)) then Throw noTextContent
      else Ok fullText
  end.

(** [file.name.split('.').pop()?.toLowerCase()]. *)
Definition extensionOf (fileName : string) : option string :=
  option_map toLowerCase (pop (split "." fileName)).

Definition extractTextFromFile (file : File) : Result JsError string :=
  match extensionOf (name file) with
  | Some "pdf" => extractTextFromPDF file
  | Some "pptx" => extractTextFromPPTX file
  | Some "txt" | Some "md" | Some "text" => readFileAsText file
  | _ => Throw unsupportedFormat
  end.

End FileService.

(* ================================================================= *)
(** ** App.tsx: the other handlers and the clicks the page offers *)

Module AppFlow.

Import Js Types Gemini FileService.
Import App.
Local Open Scope string_scope.
Local Open Scope io_scope.

Definition setLectureText (v : string) (a : State) : State :=
  {| lectureText := v; appState := appState a; topics := topics a;
     currentQuiz := currentQuiz a; kgData := kgData a;
     summaryData := summaryData a; selectedTopic := selectedTopic a;
     loadingMsg := loadingMsg a; uploadedFileName := uploadedFileName a;
     isProcessingFile := isProcessingFile a |}.

Definition setUploadedFileName (v : option string) (a : State) : State :=
  {| lectureText := lectureText a; appState := appState a; topics := topics a;
     currentQuiz := currentQuiz a; kgData := kgData a;
     summaryData := summaryData a; selectedTopic := selectedTopic a;
     loadingMsg := loadingMsg a; uploadedFileName := v;
     isProcessingFile := isProcessingFile a |}.

Definition setIsProcessingFile (v : bool) (a : State) : State :=
  {| lectureText := lectureText a; appState := appState a; topics := topics a;
     currentQuiz := currentQuiz a; kgData := kgData a;
     summaryData := summaryData a; selectedTopic := selectedTopic a;
     loadingMsg := loadingMsg a; uploadedFileName := uploadedFileName a;
     isProcessingFile := v |}.

(** [handleAnalyze]: the pipeline on the text of the text area. *)
Definition handleAnalyze (sv : Service) (a : State) : M State :=
  run <- runPipeline sv (lectureText a) a ;;
  ret (final run).

(** The [TypeError] raised by reading [message] of [undefined], with the
    wording of V8. *)
Definition messageOfUndefined : JsError :=
  {| err_name := "TypeError";
     message := Some "Cannot read properties of undefined (reading 'message')" |}.

(** The [catch] and [finally] clauses of [handleFileChange], entered in
    state [a]. *)
Definition fileCatch (err : JsError) (a : State) : M State :=
  emit (EvConsoleError (Some err)) ;;;
  emit (EvAlert ("Error reading file: " ++ showOpt (message err))) ;;;
  ret (setIsProcessingFile false (setUploadedFileName None a)).

(** [handleFileChange]; [file] is [e.target.files?.[0]].  An error that
    leaves [runPipeline] (only its own [catch] clause can raise one) is
    caught here like an error of the extraction. *)
Definition handleFileChange (sv : Service) (file : option File) (a : State)
    : M State :=
  match file with
  | None => ret a
  | Some f =>
      let a0 := setUploadedFileName (Some (name f))
                  (setIsProcessingFile true a) in
      match extractTextFromFile f with
      | Throw err => fileCatch err a0
      | Ok text =>
          run <- runPipeline sv text (setLectureText text a0) ;;
          if uncaught run then fileCatch messageOfUndefined (final run)
          else ret (setIsProcessingFile false (final run))
      end
  end.

(** The four buttons of the sidebar, with the [id] of each. *)
Inductive SidebarItem := ItemSummary | ItemTopics | ItemGraph | ItemNew.

Definition itemId (item : SidebarItem) : AppState :=
  match item with
  | ItemSummary => SUMMARY_VIEW
  | ItemTopics => TOPICS_VIEW
  | ItemGraph => KG_VIEW
  | ItemNew => IDLE
  end.

(** The [onClick] of a sidebar button. *)
Definition clickSidebar (item : SidebarItem) (a : State) : State :=
  match item with
  | ItemNew =>
      setAppState IDLE (setUploadedFileName None (setLectureText EmptyString a))
  | _ => setAppState (itemId item) a
  end.

(** [lectureText.split(/\s+/)]: the pieces between the runs of white space
    ([\s] is the white space of [trim]).  [inRun] tells that the character
    before was white space. *)
Fixpoint splitWhite (inRun : bool) (s : string) : list string :=
  match s with
  | EmptyString => [EmptyString]
  | String c s' =>
      if isWhite c then
        if inRun then splitWhite true s'
        else EmptyString :: splitWhite true s'
      else match splitWhite false s' with
           | [] => [String c EmptyString]
           | piece :: pieces => String c piece :: pieces
           end
  end.

(** The word counter under the text area:
    [lectureText.split(/\s+/).filter(x => x).length]. *)
Definition wordCount (text : string) : nat :=
  length (filter truthy (splitWhite false text)).

(** What the user can do on the page. *)
Inductive AppEvent :=
| TypeText (value : string)          (* the text area: setLectureText *)
| ClickAnalyze                       (* "Analyze Materials": handleAnalyze *)
| ChooseFile (file : option File)    (* "Upload File": handleFileChange *)
| ClickSidebar (item : SidebarItem)  (* a button of the sidebar *)
| ClickExplore                       (* "Explore Topic Breakdown" *)
| ClickStartQuiz (index : nat)       (* "Start Assessment" of a topic card *)
| QuizRetake (newQ : list QuizQuestion)  (* QuizView calls onRetake *)
| QuizFinish.                        (* QuizView calls onFinish *)

(** Which control is on the rendered page and not [disabled]: the sidebar
    outside [IDLE] and [ANALYZING]; the text area and the two buttons of the
    [IDLE] view; the button of the summary view; the topic cards; the quiz
    view.  A regeneration started in the quiz view may complete, and call
    [onRetake], whatever page is shown by then. *)
Definition offered (a : State) (ev : AppEvent) : bool :=
  match ev with
  | TypeText _ =>
      match appState a with IDLE => true | _ => false end
  | ClickAnalyze =>
      match appState a with
      | IDLE => truthy (trim (lectureText a)) && negb (isProcessingFile a)
      | _ => false
      end
  | ChooseFile _ =>
      match appState a with IDLE => negb (isProcessingFile a) | _ => false end
  | ClickSidebar _ =>
      match appState a with IDLE | ANALYZING => false | _ => true end
  | ClickExplore =>
      match appState a, summaryData a with
      | SUMMARY_VIEW, Some _ => true
      | _, _ => false
      end
  | ClickStartQuiz i =>
      match appState a, nth_error (topics a) i with
      | TOPICS_VIEW, Some _ => true
      | _, _ => false
      end
  | QuizRetake _ => true
  | QuizFinish =>
      match appState a, selectedTopic a with
      | QUIZ_VIEW, Some _ => true
      | _, _ => false
      end
  end.

(** One action of the user: the handler runs to its end when its control is
    offered.  While a run of the pipeline or the generation of a quiz is
    awaited the page is the loading screen, which has no control; while the
    text of a file is extracted the two buttons of the entry page are
    disabled. *)
Definition step (sv : Service) (aw : State * World) (ev : AppEvent)
    : State * World :=
  let (a, w) := aw in
  if offered a ev then
    match ev with
    | TypeText v => (setLectureText v a, w)
    | ClickAnalyze => handleAnalyze sv a w
    | ChooseFile file => handleFileChange sv file a w
    | ClickSidebar item => (clickSidebar item a, w)
    | ClickExplore => (setAppState TOPICS_VIEW a, w)
    | ClickStartQuiz i =>
        match nth_error (topics a) i with
        | Some topic => handleStartQuiz sv topic a w
        | None => (a, w)
        end
    | QuizRetake newQ => (setCurrentQuiz newQ a, w)
    | QuizFinish => (setAppState TOPICS_VIEW a, w)
    end
  else (a, w).

Definition runApp (sv : Service) (evs : list AppEvent) (aw : State * World)
    : State * World :=
  fold_left (step sv) evs aw.

(** The three artifacts of a state are the results of the three stage calls
    of one run, on some text from some world. *)
Definition artifactsOfOneRun (sv : Service) (a : State) : Prop :=
  exists (text : string) (w : World) s g t,
    fst (summaryStage sv text w) = Ok s /\
    fst (graphStage sv text w) = Ok g /\
    fst (topicsStage sv text w) = Ok t /\
    summaryData a = Some s /\ kgData a = Some g /\ topics a = topics_of t.

End AppFlow.

(* ================================================================= *)
(** ** Measures on file names and slide lists *)

Module FileSpec.

Import Js FileService.

(** A string has no dot. *)
Fixpoint noDot (s : string) : bool :=
  match s with
  | EmptyString => true
  | String c s' => negb (Ascii.eqb c ".") && noDot s'
  end.



(** [xs.join('')]. *)
Definition concatAll (xs : list string) : string :=
  fold_right String.append EmptyString xs.

End FileSpec.

(* ================================================================= *)
(** ** Concrete files *)

Module SampleFiles.

Import Js Types Gemini FileService.
Local Open Scope string_scope.

Definition noReader : Result JsError (list ZipEntry) :=
  Throw {| err_name := "Error"; message := Some "not a zip file" |}.

Definition noPdf : Result JsError (list (list string)) :=
  Throw {| err_name := "InvalidPDFException";
           message := Some "Invalid PDF structure." |}.

(** A text file with an upper-case extension. *)
Definition notes : File :=
  {| name := "Lecture.Notes.TXT"; readerText := Some "Sorting";
     pdfPages := noPdf; zipEntries := noReader |}.

(** A picture. *)
Definition picture : File :=
  {| name := "slide.png"; readerText := Some "PNG";
     pdfPages := noPdf; zipEntries := noReader |}.

(** A scanned PDF: two pages without a text layer. *)
Definition scan : File :=
  {| name := "scan.pdf"; readerText := Some "%PDF";
     pdfPages := Ok [[]; [" "]]; zipEntries := noReader |}.

(** A deck of three slides stored out of order, the second one without
    text, beside an entry that is not a slide. *)
Definition deck : File :=
  {| name := "deck.pptx"; readerText := Some "PK";
     pdfPages := noPdf;
     zipEntries :=
       Ok [ {| path := "ppt/slides/slide10.xml"; texts := [Some "Ten"] |};
            {| path := "ppt/presentation.xml"; texts := [Some "no"] |};
            {| path := "ppt/slides/slide2.xml"; texts := [] |};
            {| path := "ppt/slides/slide1.xml";
               texts := [Some "Merge"; None; Some "sort"] |} ] |}.

(** An archive without slides. *)
Definition emptyDeck : File :=
  {| name := "empty.pptx"; readerText := Some "PK";
     pdfPages := noPdf;
     zipEntries := Ok [ {| path := "ppt/presentation.xml"; texts := [] |} ] |}.

End SampleFiles.

(* ================================================================= *)
(** ** Proof steps shared by the pipeline theorems *)

(** Replaces the outcome of each stage call by the value a hypothesis gives
    it, and evaluates the success tests on the result. *)
Ltac stage_facts :=
  repeat match goal with
         | H : fst (_ _ _ _) = _ |- _ => rewrite H in *
         end;
  cbn [Gemini.isOk andb] in *.

(* ================================================================= *)
(** ** Facts about the primitives *)

Module JsFacts.

Import Js.
Local Open Scope string_scope.

Lemma includes_app_r (a b search : string) :
  includes b search = true -> includes (a ++ b) search = true.
Proof.
  intro H. induction a as [|c a IH]; simpl.
  - exact H.
  - destruct search as [|c0 search0]; [reflexivity|].
    destruct (ascii_dec c0 c) as [_|_];
      [destruct (String.prefix search0 (a ++ b))|]; auto.
Qed.

Lemma truthy_false (s : string) : truthy s = false <-> s = EmptyString.
Proof. destruct s; simpl; split; congruence. Qed.

Lemma trim_blank : trim (String (ascii_of_nat 32) EmptyString) = EmptyString.
Proof. reflexivity. Qed.

Example trim_both_ends : trim ("  a b " ++ nl) = "a b".
Proof. reflexivity. Qed.

Example includes_marker :
  includes "got status: 429 Too Many Requests" "429" = true
  /\ includes "RESOURCE_EXHAUSTED" "RESOURCE_EXHAUSTED" = true
  /\ includes "fetch failed" "429" = false
  /\ includes "42 9" "429" = false
  /\ includes "abc" EmptyString = true.
Proof. repeat split. Qed.

Example ofNat_decimal : ofNat 0 = "0" /\ ofNat 5 = "5" /\ ofNat 120 = "120".
Proof. repeat split. Qed.

Example join_commas :
  join ", " ["divide"; "merge"] = "divide, merge"
  /\ join ", " ["divide"] = "divide"
  /\ join ", " [] = EmptyString.
Proof. repeat split. Qed.

End JsFacts.

(* ================================================================= *)
(** ** Facts about [withRetry] *)

Module RetryFacts.

Import Js Types Gemini.




Section Attempts.

Context {T : Type}.
Variable sv : Service.
Variable reply : nat -> Request -> Result JsError T.
Variable req : Request.

(** One iteration of the loop. *)
Lemma retryLoop_step (maxRetries fuel i : nat) (lastError : option JsError)
    (w : World) :
  retryLoop sv (generateContent reply req) maxRetries (S fuel) i lastError w =
  let w1 := {| w_calls := S (w_calls w); w_draws := w_draws w;
               w_log := w_log w ++ [EvRequest req] |} in
  match reply (w_calls w) req with
  | Ok v => (Ok v, w1)
  | Throw err =>
      if isQuotaError err && (i <? maxRetries - 1)
      then retryLoop sv (generateContent reply req) maxRetries fuel (S i) (Some err)
             {| w_calls := S (w_calls w); w_draws := S (w_draws w);
                w_log := (w_log w ++ [EvRequest req])
                         ++ [EvSleep (wait i (random sv (w_draws w)))] |}
      else (Throw (Some err), w1)
  end.
Proof.
  cbn [retryLoop]. unfold bind at 1. unfold generateContent at 1.
  destruct (reply (w_calls w) req) as [v|err]; [reflexivity|].
  destruct (isQuotaError err && (i <? maxRetries - 1)); reflexivity.
Qed.

(** The loop, entered with [fuel = maxRetries - i >= 1]: it makes some
    [k] attempts; all but the last failed with a quota error; the last
    one decides the result. *)
Lemma retryLoop_attempts :
  forall fuel maxRetries i lastError w r w',
    fuel + i = maxRetries -> 1 <= fuel ->
    retryLoop sv (generateContent reply req) maxRetries fuel i lastError w = (r, w') ->
    exists k,
      1 <= k <= fuel /\
      w_calls w' = w_calls w + k /\
      w_draws w' = w_draws w + (k - 1) /\
      w_log w' = w_log w ++ attemptsTrace sv req k i (w_draws w) /\
      (forall j, j + 1 < k ->
         exists e, reply (w_calls w + j) req = Throw e /\
                   isQuotaError e = true) /\
      match reply (w_calls w + (k - 1)) req with
      | Ok v => r = Ok v
      | Throw e =>
          r = Throw (Some e) /\ (isQuotaError e = false \/ i + k = maxRetries)
      end.
Proof.
  induction fuel as [|fuel IH]; intros n i last w r w' Hn Hf Hrun; [lia|].
  rewrite retryLoop_step in Hrun.
  destruct (reply (w_calls w) req) as [v|e] eqn:Hrep.
  - (* the attempt returns *)
    inversion Hrun; subst; clear Hrun. cbn.
    exists 1. rewrite !Nat.add_0_r, Hrep.
    repeat split; try lia.
  - destruct (isQuotaError e && (i <? n - 1)) eqn:Hq.
    + (* quota error with attempts left: back off and go on *)
      apply andb_true_iff in Hq. destruct Hq as [Hq Hi].
      apply Nat.ltb_lt in Hi.
      apply IH in Hrun; [|lia|lia].
      destruct Hrun as (k & Hk & Hc & Hd & Hl & Hprev & Hlast).
      cbn [w_calls w_draws w_log] in Hc, Hd, Hl, Hprev, Hlast.
      exists (S k). repeat split; try lia.
      * rewrite Hl, <- !app_assoc. cbn [app attemptsTrace].
        destruct k as [|k]; [lia|]. reflexivity.
      * intros j Hj. destruct j as [|j].
        -- exists e. rewrite Nat.add_0_r. auto.
        -- destruct (Hprev j ltac:(lia)) as (e' & He' & Hq').
           exists e'. split; [|exact Hq'].
           rewrite <- He'. f_equal. lia.
      * replace (w_calls w + (S k - 1)) with (S (w_calls w) + (k - 1)) by lia.
        destruct (reply (S (w_calls w) + (k - 1)) req); [exact Hlast|].
        destruct Hlast as [Hr [Hnq|Hend]]; split; auto. right; lia.
    + (* any other error, or the last attempt: rethrow *)
      inversion Hrun; subst; clear Hrun. cbn.
      exists 1. rewrite !Nat.add_0_r, Hrep.
      repeat split; try lia.
      apply andb_false_iff in Hq. destruct Hq as [Hq|Hq]; [left; exact Hq|].
      apply Nat.ltb_ge in Hq. right; lia.
Qed.

Lemma withRetry_attempts :
  forall maxRetries w r w',
    1 <= maxRetries ->
    withRetry sv (generateContent reply req) maxRetries w = (r, w') ->
    exists k,
      1 <= k <= maxRetries /\
      w_calls w' = w_calls w + k /\
      w_draws w' = w_draws w + (k - 1) /\
      w_log w' = w_log w ++ attemptsTrace sv req k 0 (w_draws w) /\
      (forall j, j + 1 < k ->
         exists e, reply (w_calls w + j) req = Throw e /\
                   isQuotaError e = true) /\
      match reply (w_calls w + (k - 1)) req with
      | Ok v => r = Ok v
      | Throw e =>
          r = Throw (Some e) /\ (isQuotaError e = false \/ k = maxRetries)
      end.
Proof.
  intros n w r w' Hn Hrun. unfold withRetry in Hrun.
  apply retryLoop_attempts in Hrun; [|lia|lia].
  destruct Hrun as (k & H1 & H2 & H3 & H4 & H5 & H6).
  exists k. repeat split; try tauto; try lia.
Qed.

End Attempts.

Lemma newEvents_app (w w' : World) (evs : list Event) :
  w_log w' = w_log w ++ evs -> newEvents w w' = evs.
Proof.
  intro H. unfold newEvents. rewrite H. clear H.
  induction (w_log w) as [|x l IH]; [reflexivity | exact IH].
Qed.

Lemma sleepsOf_attemptsTrace (sv : Service) (req : Request) (k i d : nat) :
  length (sleepsOf (attemptsTrace sv req k i d)) = k - 1.
Proof.
  revert i d. induction k as [|k IH]; intros i d; [reflexivity|].
  cbn [attemptsTrace sleepsOf]. destruct k as [|k]; [reflexivity|].
  cbn [sleepsOf length]. rewrite IH. lia.
Qed.

Lemma requestsOf_attemptsTrace (sv : Service) (req : Request) (k i d : nat) :
  requestsOf (attemptsTrace sv req k i d) = repeat req k.
Proof.
  revert i d. induction k as [|k IH]; intros i d; [reflexivity|].
  cbn [attemptsTrace requestsOf repeat]. destruct k as [|k]; [reflexivity|].
  cbn [requestsOf]. rewrite IH. reflexivity.
Qed.

Lemma attemptsTrace_last (sv : Service) (req : Request) (k i d : nat) :
  1 <= k ->
  exists evs, attemptsTrace sv req k i d = evs ++ [EvRequest req].
Proof.
  revert i d. induction k as [|k IH]; intros i d Hk; [lia|].
  cbn [attemptsTrace]. destruct k as [|k].
  - exists []. reflexivity.
  - destruct (IH (S i) (S d) ltac:(lia)) as (evs & Hevs).
    exists (EvRequest req :: EvSleep (wait i (random sv d)) :: evs).
    rewrite Hevs. reflexivity.
Qed.

Lemma withRetry_zero {T} (sv : Service) (fn : M (Result JsError T)) (w : World) :
  withRetry sv fn 0 w = (Throw None, w).
Proof. reflexivity. Qed.

(** C3.  Whatever the wrapped request, the bound and the behaviour of the
  service: (1) an attempt is followed by another one only when it failed
  with an error whose text carries the marker [429] or [RESOURCE_EXHAUSTED];
  (2) there are exactly as many backoff delays as retries; (3) an attempt
  that fails with any other error ends the call: that error is raised, the
  failing request is the last event, and the only delays are those of the
  rate-limited attempts before it; (4) in particular, when the first attempt
  fails with such an error the call consists of that single request and
  raises the error, with no retry and no delay. *)
Theorem withRetry_retries_only_rate_limited :
forall (T : Type) (sv : Service)
       (reply : nat -> Request -> Result JsError T) (req : Request)
       (maxRetries : nat) (w : World)
       (r : Result (option JsError) T) (w' : World),
  withRetry sv (generateContent reply req) maxRetries w = (r, w') ->
  (forall j, w_calls w + j + 1 < w_calls w' ->
     exists e, reply (w_calls w + j) req = Throw e /\ isQuotaError e = true)
  /\ length (sleepsOf (newEvents w w')) = w_calls w' - w_calls w - 1
  /\ (forall j e,
        w_calls w + j < w_calls w' ->
        reply (w_calls w + j) req = Throw e ->
        isQuotaError e = false ->
        r = Throw (Some e)
        /\ w_calls w' = w_calls w + j + 1
        /\ length (sleepsOf (newEvents w w')) = j
        /\ exists evs, w_log w' = evs ++ [EvRequest req])
  /\ (1 <= maxRetries ->
      forall e,
        reply (w_calls w) req = Throw e ->
        isQuotaError e = false ->
        r = Throw (Some e)
        /\ w_log w' = w_log w ++ [EvRequest req]
        /\ sleepsOf (newEvents w w') = []).
Proof.
intros T sv reply req n w r w' Hrun.
destruct n as [|n].
- (* no attempt at all *)
  rewrite withRetry_zero in Hrun. inversion Hrun; subst; clear Hrun.
  unfold newEvents. rewrite skipn_all.
  repeat split; try (intros; lia). cbn. lia.
- destruct (withRetry_attempts sv reply req (S n) w r w' ltac:(lia) Hrun)
    as (k & Hk & Hc & Hd & Hl & Hprev & Hlast).
  pose proof (newEvents_app w w' _ Hl) as Hnew.
  assert (Hfast : forall j e,
            j < k -> reply (w_calls w + j) req = Throw e ->
            isQuotaError e = false ->
            r = Throw (Some e) /\ j + 1 = k).
  { intros j e Hj He Hq.
    destruct (Nat.eq_dec (j + 1) k) as [Heq|Hne].
    - replace (k - 1) with j in Hlast by lia. rewrite He in Hlast. tauto.
    - destruct (Hprev j ltac:(lia)) as (e' & He' & Hq'). congruence. }
  split; [|split; [|split]].
  + intros j Hj. apply Hprev. lia.
  + rewrite Hnew, sleepsOf_attemptsTrace. lia.
  + intros j e Hj He Hq.
    destruct (Hfast j e ltac:(lia) He Hq) as [Hr Hjk].
    split; [exact Hr|]. split; [lia|]. split.
    * rewrite Hnew, sleepsOf_attemptsTrace. lia.
    * destruct (attemptsTrace_last sv req k 0 (w_draws w) ltac:(lia))
        as (evs & Hevs).
      exists (w_log w ++ evs). rewrite Hl, Hevs, app_assoc. reflexivity.
  + intros _ e He Hq.
    rewrite <- (Nat.add_0_r (w_calls w)) in He.
    destruct (Hfast 0 e ltac:(lia) He Hq) as [Hr Hjk].
    split; [exact Hr|]. subst k. cbn in Hl. rewrite Hnew. auto.
Qed.

(** A service that fails the knowledge-graph request with an error without
  quota marker: one request, no delay, the error raised. *)
Lemma withRetry_retries_only_rate_limited_witness :
let w' := {| w_calls := 1; w_draws := 0;
             w_log := [EvRequest (graphRequest "T")] |} in
isQuotaError Samples.generic = false /\
withRetry Samples.svGraphFails
  (generateContent (reply_graph Samples.svGraphFails) (graphRequest "T"))
  3 Samples.w0 = (Throw (Some Samples.generic), w') /\
sleepsOf (newEvents Samples.w0 w') = [].
Proof.
intro w'.
assert (Hrun : withRetry Samples.svGraphFails
          (generateContent (reply_graph Samples.svGraphFails) (graphRequest "T"))
          3 Samples.w0 = (Throw (Some Samples.generic), w')) by reflexivity.
split; [reflexivity|]. split; [exact Hrun|].
pose proof (withRetry_retries_only_rate_limited _ _ _ _ _ _ _ _ Hrun) as (_ & _ & _ & H4).
exact (proj2 (proj2 (H4 (le_S _ _ (le_S _ _ (le_n 1))) Samples.generic
                       eq_refl eq_refl))).
Defined.



(** A stage function makes between one and three requests, all of them the
    stage's own, and raises an error object when it fails. *)
Lemma stage_run :
  forall (T : Type) (sv : Service)
         (reply : nat -> Request -> Result JsError T) (req : Request)
         (w : World) (r : Result (option JsError) T) (w' : World),
    withRetry sv (generateContent reply req) defaultMaxRetries w = (r, w') ->
    exists k evs,
      1 <= k <= 3 /\
      w_log w' = w_log w ++ evs /\
      requestsOf evs = repeat req k /\
      r <> Throw None.
Proof.
  intros T sv reply req w r w' Hrun.
  destruct (withRetry_attempts sv reply req 3 w r w' ltac:(lia) Hrun)
    as (k & Hk & _ & _ & Hl & _ & Hlast).
  exists k, (attemptsTrace sv req k 0 (w_draws w)).
  repeat split; try lia; auto using requestsOf_attemptsTrace.
  destruct (reply (w_calls w + (k - 1)) req); intro Hr; subst r.
  - discriminate.
  - destruct Hlast; discriminate.
Qed.

Lemma requestsOf_app (l1 l2 : list Event) :
  requestsOf (l1 ++ l2) = requestsOf l1 ++ requestsOf l2.
Proof.
  induction l1 as [|[req|ms|err|msg] l1 IH]; cbn; rewrite ?IH; reflexivity.
Qed.

End RetryFacts.

(* ================================================================= *)
(** ** Facts about [runPipeline] *)

Module PipelineFacts.

Import Js Types Gemini App RetryFacts.
Local Open Scope string_scope.
Local Open Scope list_scope.

(** The three requests differ in their [config]. *)
Lemma requests_distinct (t1 t2 t3 : string) :
summaryRequest t1 <> graphRequest t2 /\
summaryRequest t1 <> topicsRequest t3 /\
graphRequest t2 <> topicsRequest t3.
Proof.
repeat split; intro H; apply (f_equal config) in H; discriminate.
Qed.

(** What the [catch] clause does with an error object. *)
Lemma pipelineCatch_error (e : JsError) (a : State) (before : list State)
  (w : World) :
pipelineCatch (Some e) a before w =
({| final := setAppState IDLE a; seen := before ++ [setAppState IDLE a];
    uncaught := false |},
 {| w_calls := w_calls w; w_draws := w_draws w;
    w_log := w_log w ++
             [EvConsoleError (Some e);
              EvAlert (if isQuotaError e then quotaAlert else failedAlert)] |}).
Proof.
unfold pipelineCatch, bind, emit, ret. cbn. rewrite <- app_assoc. reflexivity.
Qed.

(** The four ways a run on a text that passes the guard can go.  [n1], [n2]
  and [n3] count the requests of the three stages. *)
Lemma runPipeline_shape (sv : Service) (text : string) (a : State) (w : World)
  (run : Run) (w' : World) :
nonBlank text = true ->
runPipeline sv text a w = (run, w') ->
let a1 := setLoadingMsg "Distilling Core Intelligence..."
            (setAppState ANALYZING a) in
exists n1 n2 n3,
  1 <= n1 <= 3 /\ n2 <= 3 /\ n3 <= 3 /\
  requestsOf (newEvents w w') =
    repeat (summaryRequest text) n1 ++ repeat (graphRequest text) n2
    ++ repeat (topicsRequest text) n3 /\
  ((exists e pre,
      fst (summaryStage sv text w) = Throw (Some e) /\
      n2 = 0 /\ n3 = 0 /\
      run = {| final := setAppState IDLE a1;
               seen := [a1; setAppState IDLE a1]; uncaught := false |} /\
      w_log w' = pre ++ [EvConsoleError (Some e);
                         EvAlert (if isQuotaError e then quotaAlert
                                  else failedAlert)])
   \/
   (exists s e pre,
      fst (summaryStage sv text w) = Ok s /\
      fst (graphStage sv text w) = Throw (Some e) /\
      1 <= n2 /\ n3 = 0 /\
      let a2 := setLoadingMsg "Mapping Semantic Relationships..."
                  (setSummaryData (Some s) a1) in
      run = {| final := setAppState IDLE a2;
               seen := [a1; a2; setAppState IDLE a2]; uncaught := false |} /\
      w_log w' = pre ++ [EvConsoleError (Some e);
                         EvAlert (if isQuotaError e then quotaAlert
                                  else failedAlert)])
   \/
   (exists s g e pre,
      fst (summaryStage sv text w) = Ok s /\
      fst (graphStage sv text w) = Ok g /\
      fst (topicsStage sv text w) = Throw (Some e) /\
      1 <= n2 /\ 1 <= n3 /\
      let a2 := setLoadingMsg "Mapping Semantic Relationships..."
                  (setSummaryData (Some s) a1) in
      let a3 := setLoadingMsg "Deconstructing Lecture Architecture..."
                  (setKgData (Some g) a2) in
      run = {| final := setAppState IDLE a3;
               seen := [a1; a2; a3; setAppState IDLE a3];
               uncaught := false |} /\
      w_log w' = pre ++ [EvConsoleError (Some e);
                         EvAlert (if isQuotaError e then quotaAlert
                                  else failedAlert)])
   \/
   (exists s g t,
      fst (summaryStage sv text w) = Ok s /\
      fst (graphStage sv text w) = Ok g /\
      fst (topicsStage sv text w) = Ok t /\
      1 <= n2 /\ 1 <= n3 /\
      let a2 := setLoadingMsg "Mapping Semantic Relationships..."
                  (setSummaryData (Some s) a1) in
      let a3 := setLoadingMsg "Deconstructing Lecture Architecture..."
                  (setKgData (Some g) a2) in
      let a4 := setAppState SUMMARY_VIEW (setTopics (topics_of t) a3) in
      run = {| final := a4; seen := [a1; a2; a3; a4]; uncaught := false |})).
Proof.
intros Hnb Hrun a1.
unfold runPipeline in Hrun. unfold nonBlank in Hnb. rewrite Hnb in Hrun.
cbn [negb] in Hrun. fold a1 in Hrun. unfold bind in Hrun.
unfold topicsStage, graphStage, summaryStage.
destruct (generateGeneralSummary sv text w) as [r1 w1] eqn:E1.
destruct (stage_run _ _ _ _ _ _ _ E1) as (n1 & evs1 & Hn1 & Hl1 & Hq1 & Hr1).
cbn [fst snd].
destruct r1 as [s|[e|]]; [| |congruence].
2:{ (* the summary fails *)
    rewrite pipelineCatch_error in Hrun. inversion Hrun; subst run w'; clear Hrun.
    exists n1, 0, 0. repeat split; try lia.
    - erewrite newEvents_app;
        [|cbn [w_log]; rewrite Hl1, <- app_assoc; reflexivity].
      rewrite requestsOf_app, Hq1. cbn. rewrite !app_nil_r. reflexivity.
    - left. exists e, (w_log w1). cbn [w_log]. auto. }
destruct (extractKnowledgeGraph sv text w1) as [r2 w2] eqn:E2.
destruct (stage_run _ _ _ _ _ _ _ E2) as (n2 & evs2 & Hn2 & Hl2 & Hq2 & Hr2).
cbn [fst snd].
destruct r2 as [g|[e|]]; [| |congruence].
2:{ (* the knowledge graph fails *)
    rewrite pipelineCatch_error in Hrun. inversion Hrun; subst run w'; clear Hrun.
    exists n1, n2, 0. repeat split; try lia.
    - erewrite newEvents_app;
        [|cbn [w_log]; rewrite Hl2, Hl1, <- !app_assoc; reflexivity].
      rewrite !requestsOf_app, Hq1, Hq2. cbn. rewrite !app_nil_r. reflexivity.
    - right; left. exists s, e, (w_log w2). cbn [w_log].
      repeat split; auto; lia. }
destruct (extractTopics sv text w2) as [r3 w3] eqn:E3.
destruct (stage_run _ _ _ _ _ _ _ E3) as (n3 & evs3 & Hn3 & Hl3 & Hq3 & Hr3).
cbn [fst snd].
destruct r3 as [t|[e|]]; [| |congruence].
2:{ (* the topics fail *)
    rewrite pipelineCatch_error in Hrun. inversion Hrun; subst run w'; clear Hrun.
    exists n1, n2, n3. repeat split; try lia.
    - erewrite newEvents_app;
        [|cbn [w_log]; rewrite Hl3, Hl2, Hl1, <- !app_assoc; reflexivity].
      rewrite !requestsOf_app, Hq1, Hq2, Hq3. cbn. rewrite !app_nil_r.
      reflexivity.
    - right; right; left. exists s, g, e, (w_log w3). cbn [w_log].
      repeat split; auto; lia. }
(* all three return *)
unfold ret in Hrun. inversion Hrun; subst run w'; clear Hrun.
exists n1, n2, n3. repeat split; try lia.
- erewrite newEvents_app; [|rewrite Hl3, Hl2, Hl1, <- !app_assoc; reflexivity].
  rewrite !requestsOf_app, Hq1, Hq2, Hq3. reflexivity.
- right; right; right. exists s, g, t. repeat split; auto; lia.
Qed.

Lemma render_idle (a : State) : render (setAppState IDLE a) = blankPage.
Proof. reflexivity. Qed.

(** C1, as the code has it.  In a run on a text that passes the guard and in
  which a stage call fails: the state ends in [IDLE] through the [catch]
  clause, the page rendered from it shows no artifact, no state committed
  during the run is [SUMMARY_VIEW], no request of a later stage is made,
  and the failure is reported by an alert that tells a quota error from any
  other.  The artifacts stored by the stages that had returned are kept in
  their cells ([summaryData], [kgData]); the cells of the failing and later
  stages keep the value they had before the run. *)
Theorem runPipeline_failure_aborts :
forall (sv : Service) (text : string) (a : State) (w : World)
       (run : Run) (w' : World),
  nonBlank text = true ->
  runPipeline sv text a w = (run, w') ->
  allSucceed sv text w = false ->
  appState (final run) = IDLE
  /\ uncaught run = false
  /\ render (final run) = blankPage
  /\ Forall (fun a' => appState a' <> SUMMARY_VIEW) (seen run)
  /\ (exists n1 n2 n3,
        requestsOf (newEvents w w') =
          repeat (summaryRequest text) n1 ++ repeat (graphRequest text) n2
          ++ repeat (topicsRequest text) n3
        /\ (isOk (fst (summaryStage sv text w)) = false -> n2 = 0 /\ n3 = 0)
        /\ (isOk (fst (graphStage sv text w)) = false -> n3 = 0))
  /\ (forall s, fst (summaryStage sv text w) = Ok s ->
        summaryData (final run) = Some s)
  /\ (forall s g,
        fst (summaryStage sv text w) = Ok s ->
        fst (graphStage sv text w) = Ok g ->
        kgData (final run) = Some g)
  /\ (isOk (fst (summaryStage sv text w)) = false ->
        summaryData (final run) = summaryData a
        /\ kgData (final run) = kgData a)
  /\ (isOk (fst (graphStage sv text w)) = false ->
        kgData (final run) = kgData a)
  /\ topics (final run) = topics a
  /\ (exists e pre,
        w_log w' = pre ++ [EvConsoleError (Some e);
                           EvAlert (if isQuotaError e then quotaAlert
                                    else failedAlert)]).
Proof.
intros sv text a w run w' Hnb Hrun Hfail.
destruct (runPipeline_shape sv text a w run w' Hnb Hrun)
  as (n1 & n2 & n3 & Hn1 & Hn2 & Hn3 & Hreq & Hcase).
unfold allSucceed in Hfail.
assert (Hne : forall x : State, appState (setAppState IDLE x) <> SUMMARY_VIEW)
  by (intros x; cbn; discriminate).
destruct Hcase as [(e & pre & H1 & -> & -> & -> & Hlog)
                  |[(s & e & pre & H1 & H2 & Hk2 & -> & -> & Hlog)
                   |[(s & g & e & pre & H1 & H2 & H3 & Hk2 & Hk3 & -> & Hlog)
                    |(s & g & t & H1 & H2 & H3 & _)]]];
  stage_facts; try discriminate; cbn [final seen uncaught];
  (split; [reflexivity|]); (split; [reflexivity|]);
  (split; [apply render_idle|]);
  (split; [repeat constructor; cbn; discriminate|]);
  (split; [exists n1; eexists; eexists; split; [exact Hreq|];
           split; intros; try discriminate; auto|]);
  (split; [intros s0 Hs; try discriminate; inversion Hs; reflexivity|]);
  (split; [intros s0 g0 Hs Hg; try discriminate; inversion Hg; reflexivity|]);
  (split; [intros; try discriminate; auto|]);
  (split; [intros; try discriminate; auto|]);
  (split; [reflexivity|]);
  exists e, pre; exact Hlog.
Qed.

(** C1 as stated fails: the summary returns, the knowledge graph fails with
  an error without quota marker; the run ends in [IDLE] and the summary of
  the aborted run is still in [summaryData]. *)
Lemma runPipeline_keeps_partial_artifacts :
let run := fst (runPipeline Samples.svGraphFails "T" App.initial Samples.w0) in
fst (summaryStage Samples.svGraphFails "T" Samples.w0) = Ok Samples.sampleSummary
/\ fst (graphStage Samples.svGraphFails "T" Samples.w0)
   = Throw (Some Samples.generic)
/\ isQuotaError Samples.generic = false
/\ appState (final run) = IDLE
/\ summaryData (final run) = Some Samples.sampleSummary
/\ ~ holdsNoArtifact (final run).
Proof.
cbv zeta. repeat split.
intros [H _]. discriminate H.
Qed.

Lemma runPipeline_failure_aborts_witness :
let rw := runPipeline Samples.svGraphFails "T" App.initial Samples.w0 in
nonBlank "T" = true
/\ allSucceed Samples.svGraphFails "T" Samples.w0 = false
/\ appState (final (fst rw)) = IDLE
/\ render (final (fst rw)) = blankPage
/\ summaryData (final (fst rw)) = Some Samples.sampleSummary.
Proof.
intro rw.
pose proof (runPipeline_failure_aborts Samples.svGraphFails "T" App.initial
              Samples.w0 (fst rw) (snd rw) eq_refl eq_refl eq_refl)
  as (Hidle & _ & Hpage & _ & _ & Hsum & _).
split; [reflexivity|]. split; [reflexivity|].
split; [exact Hidle|]. split; [exact Hpage|].
apply Hsum. reflexivity.
Defined.



(** Ingest "T"; Summary returns; KnowledgeGraph is rate limited twice and
    then returns; Topics returns: the run ends in [SUMMARY_VIEW] with the
    three artifacts, after five requests and two delays. *)
Example runPipeline_retry_scenario :
  let rw := runPipeline Samples.svGraphRateLimitedTwice "T" App.initial
              Samples.w0 in
  requestsOf (newEvents Samples.w0 (snd rw))
  = [summaryRequest "T"; graphRequest "T"; graphRequest "T"; graphRequest "T";
     topicsRequest "T"]
  /\ length (sleepsOf (newEvents Samples.w0 (snd rw))) = 2
  /\ appState (final (fst rw)) = SUMMARY_VIEW
  /\ summaryData (final (fst rw)) = Some Samples.sampleSummary
  /\ kgData (final (fst rw)) = Some Samples.sampleGraph
  /\ topics (final (fst rw)) = [Samples.sampleTopic].
Proof. cbv zeta. repeat split. Qed.


End PipelineFacts.

(* ================================================================= *)
(** ** Facts about [generateQuiz] and the quiz session *)

Module QuizFacts.

Import Js Types Gemini RetryFacts.
Import QuizView.
Local Open Scope string_scope.
Local Open Scope list_scope.
Local Open Scope nat_scope.

(** *** The adaptive directive *)

(** On counts, [score < total / 2] is [2 * score < total]. *)
Lemma belowHalf_nat (c : AdaptiveContext) :
belowHalf c = (2 * ctx_score c <? ctx_total c).
Proof.
unfold belowHalf, Qlt_bool, Qle_bool.
destruct (Nat.ltb_spec (2 * ctx_score c) (ctx_total c)); cbn;
  destruct (Z.leb_spec (Z.of_nat (ctx_total c) * 1 * 1)
                       (Z.of_nat (ctx_score c) * 2));
  try reflexivity; lia.
Qed.

Lemma belowHalf_Qlt (c : AdaptiveContext) :
belowHalf c = true <->
(inject_Z (Z.of_nat (ctx_score c)) < inject_Z (Z.of_nat (ctx_total c)) / 2)%Q.
Proof.
unfold belowHalf, Qlt_bool. rewrite negb_true_iff.
split; intro H.
- apply Qnot_le_lt. intro Hle. apply Qle_bool_iff in Hle. congruence.
- destruct (Qle_bool _ _) eqn:E; [|reflexivity].
  apply Qle_bool_iff in E. exfalso. exact (Qlt_not_le _ _ H E).
Qed.

(** What [handleAdaptiveRetake] comes to, by the outcome of [generateQuiz]. *)
Lemma handleAdaptiveRetake_cases (sv : Service) (topic : Topic) (s : State)
  (w : World) :
handleAdaptiveRetake sv topic s w =
match generateQuiz sv topic
        (Some {| ctx_score := score s; ctx_total := length (questions s) |}) w
with
| (Ok resp, w') =>
    ({| questions := quiz resp; currentIdx := 0; selectedOption := None;
        isAnswered := false; score := 0; isFinishing := false;
        isAdapting := false |}, w')
| (Throw err, w') =>
    ({| questions := questions s; currentIdx := currentIdx s;
        selectedOption := selectedOption s; isAnswered := isAnswered s;
        score := score s; isFinishing := isFinishing s;
        isAdapting := false |},
     {| w_calls := w_calls w'; w_draws := w_draws w';
        w_log := w_log w' ++ [EvConsoleError err] |})
end.
Proof.
unfold handleAdaptiveRetake, bind.
destruct (generateQuiz sv topic _ w) as [[resp|err] w']; reflexivity.
Qed.

(** C6.  For a result [(score, total)] of counts: below half the request
  carries the easier directive, at full marks the advanced one, otherwise
  none; the directive is the head of [contents], which is otherwise the
  same; the directives name what they ask for; every request that
  [handleAdaptiveRetake] sends is the one built from the session's score
  and number of questions; and 0/5, 5/5 and 3/5 select easier, advanced and
  none. *)
Theorem adaptive_directive_selection :
forall (sv : Service) (topic : Topic) (score total : nat),
  let c := {| ctx_score := score; ctx_total := total |} in
  ((inject_Z (Z.of_nat score) < inject_Z (Z.of_nat total) / 2)%Q ->
     adaptivePrompt (Some c) = easierDirective c)
  /\ (score = total -> adaptivePrompt (Some c) = advancedDirective c)
  /\ (~ (inject_Z (Z.of_nat score) < inject_Z (Z.of_nat total) / 2)%Q ->
      score <> total -> adaptivePrompt (Some c) = EmptyString)
  /\ contents (quizRequest topic (Some c))
     = (adaptivePrompt (Some c) ++ quizBody topic)%string
  /\ contents (quizRequest topic None) = quizBody topic
  /\ includes (easierDirective c)
       "easier questions focusing on fundamentals" = true
  /\ includes (advancedDirective c)
       "advanced-level application-based questions (scenario-based)" = true
  /\ (forall (s : State) (w : World),
        QuizView.score s = score -> length (questions s) = total ->
        exists k, 1 <= k <= 3 /\
          requestsOf (newEvents w (snd (handleAdaptiveRetake sv topic s w)))
          = repeat (quizRequest topic (Some c)) k)
  /\ adaptivePrompt (Some {| ctx_score := 0; ctx_total := 5 |})
     = "The student answered 0/5 questions incorrectly. Regenerate 5 easier questions focusing on fundamentals."
  /\ adaptivePrompt (Some {| ctx_score := 5; ctx_total := 5 |})
     = "The student answered 5/5 correctly. Generate 5 advanced-level application-based questions (scenario-based)."
  /\ adaptivePrompt (Some {| ctx_score := 3; ctx_total := 5 |}) = EmptyString.
Proof.
intros sv topic score total c.
split; [|split; [|split; [|split; [|split; [|split; [|split; [|split]]]]]]].
- intro H. apply (proj2 (belowHalf_Qlt c)) in H.
  unfold adaptivePrompt. rewrite H. reflexivity.
- intro H. subst total. unfold adaptivePrompt. rewrite belowHalf_nat.
  subst c. cbn [ctx_score ctx_total].
  destruct (Nat.ltb_spec (2 * score) score); [lia|].
  rewrite Nat.eqb_refl. reflexivity.
- intros Hlt Hne. unfold adaptivePrompt.
  destruct (belowHalf c) eqn:E; [apply belowHalf_Qlt in E; contradiction|].
  subst c. cbn [ctx_score ctx_total].
  destruct (Nat.eqb_spec score total); [contradiction|reflexivity].
- reflexivity.
- reflexivity.
- unfold easierDirective.
  do 4 apply JsFacts.includes_app_r. reflexivity.
- unfold advancedDirective.
  do 4 apply JsFacts.includes_app_r. reflexivity.
- intros s w Hs Hl. rewrite handleAdaptiveRetake_cases, Hs, Hl. fold c.
  destruct (generateQuiz sv topic (Some c) w) as [r w1] eqn:E.
  destruct (stage_run _ _ _ _ _ _ _ E) as (k & evs & Hk & Hlog & Hreq & _).
  exists k. split; [exact Hk|].
  destruct r as [resp|err]; cbn [snd].
  + rewrite (newEvents_app _ _ _ Hlog). exact Hreq.
  + erewrite newEvents_app;
      [|cbn [w_log]; rewrite Hlog, <- app_assoc; reflexivity].
    rewrite requestsOf_app, Hreq. cbn. apply app_nil_r.
- repeat split.
Qed.

(** *** No check between the payload and the session *)

Lemma generateQuiz_first_reply (sv : Service) (topic : Topic)
  (ctx : option AdaptiveContext) (w : World) (resp : QuizResponse) :
reply_quiz sv (w_calls w) (quizRequest topic ctx) = Ok resp ->
generateQuiz sv topic ctx w =
(Ok resp, {| w_calls := S (w_calls w); w_draws := w_draws w;
             w_log := w_log w ++ [EvRequest (quizRequest topic ctx)] |}).
Proof.
intro H. unfold generateQuiz, withRetry, defaultMaxRetries.
rewrite retryLoop_step, H. reflexivity.
Qed.

(** C2, as the code has it.  Nothing stands between the parsed payload and
  the session: (1) a payload the service returns on the first attempt is
  what [generateQuiz] returns, whatever its questions; (2) a payload
  [generateQuiz] returns is one the service produced, as it is;
  (3) [handleStartQuiz] stores its [quiz] in [currentQuiz] and opens the
  quiz view on it; (4) [handleAdaptiveRetake] makes it the questions of the
  session; (5) that [correct_answer] be one of the options is asked of the
  service in the system instruction. *)
Theorem quiz_payload_stored_unchecked :
forall (sv : Service) (topic : Topic) (ctx : option AdaptiveContext)
       (w : World),
  (forall resp,
     reply_quiz sv (w_calls w) (quizRequest topic ctx) = Ok resp ->
     fst (generateQuiz sv topic ctx w) = Ok resp)
  /\ (forall resp w',
        generateQuiz sv topic ctx w = (Ok resp, w') ->
        exists k, k < 3 /\
          reply_quiz sv (w_calls w + k) (quizRequest topic ctx) = Ok resp)
  /\ (forall resp w' a,
        generateQuiz sv topic None w = (Ok resp, w') ->
        exists a',
          App.handleStartQuiz sv topic a w = (a', w')
          /\ App.appState a' = QUIZ_VIEW
          /\ App.currentQuiz a' = quiz resp
          /\ questions (initial (App.currentQuiz a')) = quiz resp)
  /\ (forall resp w' s,
        generateQuiz sv topic
          (Some {| ctx_score := score s; ctx_total := length (questions s) |})
          w = (Ok resp, w') ->
        exists s',
          handleAdaptiveRetake sv topic s w = (s', w')
          /\ questions s' = quiz resp)
  /\ includes (systemInstruction (config (quizRequest topic ctx)))
       "Ensure correct_answer matches exactly one option" = true.
Proof.
intros sv topic ctx w.
split; [|split; [|split; [|split]]].
- intros resp H. rewrite (generateQuiz_first_reply _ _ _ _ _ H). reflexivity.
- intros resp w' H.
  destruct (withRetry_attempts sv (reply_quiz sv) (quizRequest topic ctx) 3
              w (Ok resp) w' ltac:(lia) H)
    as (k & Hk & _ & _ & _ & _ & Hlast).
  exists (k - 1). split; [lia|].
  destruct (reply_quiz sv (w_calls w + (k - 1)) (quizRequest topic ctx)).
  + congruence.
  + destruct Hlast; discriminate.
- intros resp w' a H. unfold App.handleStartQuiz, bind. rewrite H.
  eexists. split; [reflexivity|]. repeat split.
- intros resp w' s H. rewrite handleAdaptiveRetake_cases, H.
  eexists. split; reflexivity.
- reflexivity.
Qed.

(** C2 as stated fails: the service answers with a question whose
  [correct_answer] is none of its options; [generateQuiz] returns it,
  [handleStartQuiz] opens the quiz view on it, and it is the question the
  session presents. *)
Lemma stray_answer_reaches_session :
let sv := Samples.svAllOk [Samples.strayQuestion] in
let a' := fst (App.handleStartQuiz sv Samples.sampleTopic App.initial
                 Samples.w0) in
fst (generateQuiz sv Samples.sampleTopic None Samples.w0)
  = Ok {| quiz := [Samples.strayQuestion] |}
/\ App.appState a' = QUIZ_VIEW
/\ currentQuestion (initial (App.currentQuiz a')) = Some Samples.strayQuestion
/\ ~ In (correct_answer Samples.strayQuestion)
        (options Samples.strayQuestion).
Proof.
cbv zeta. repeat split.
cbn. intros [H|[H|[]]]; discriminate H.
Qed.

(** *** handleSubmit *)

(** What [handleSubmit] does when the selection is a non-empty string and a
  question is on screen. *)
Lemma handleSubmit_selection (s : State) (sel : string) (q : QuizQuestion) :
selectedOption s = Some sel ->
truthy sel = true ->
currentQuestion s = Some q ->
handleSubmit s =
Returned {| questions := questions s; currentIdx := currentIdx s;
            selectedOption := Some sel; isAnswered := true;
            score := if String.eqb sel (correct_answer q)
                     then score s + 1 else score s;
            isFinishing := isFinishing s; isAdapting := isAdapting s |}.
Proof.
intros Hsel Ht Hq. unfold handleSubmit. rewrite Hsel, Ht, Hq. cbn [negb].
destruct (String.eqb sel (correct_answer q));
  unfold setScore, setIsAnswered; cbn [questions currentIdx selectedOption
    isAnswered score isFinishing isAdapting]; rewrite ?Hsel; reflexivity.
Qed.

Lemma handleSubmit_no_selection (s : State) :
selectedOption s = None -> handleSubmit s = Returned s.
Proof. intro H. unfold handleSubmit. rewrite H. reflexivity. Qed.

(** [handleSubmit] does not look at [isAnswered]: run on an answered
    question it would count the answer again.  It is the page that keeps it
    from running then, by showing the button of [handleNext] in place of
    "Check Answer". *)
Lemma handleSubmit_has_no_answered_guard :
  let s := {| questions := [Samples.goodQuestion]; currentIdx := 0;
              selectedOption := Some "Merge sort"; isAnswered := true;
              score := 1; isFinishing := false; isAdapting := false |} in
  score (stateOf (handleSubmit s)) = 2
  /\ enabled s ClickSubmit = false.
Proof. cbv zeta. split; reflexivity. Qed.

(** C7 fails on an option that is the empty string.  The question offers the
  options [""] and ["A newline"], and [""] is the correct answer.  After a
  click on the first option the selection is recorded and equals
  [correct_answer], yet "Check Answer" is not offered and [handleSubmit]
  returns without a change: the session stays in [Presenting 0] with score
  0. *)
Lemma handleSubmit_ignores_blank_selection :
let sv := Samples.svAllOk [] in
let q := Samples.blankOptionQuestion in
let s1 := fst (dispatch sv Samples.sampleTopic
                 (initial [q], Samples.w0) (ClickOption EmptyString)) in
In EmptyString (options q)
/\ currentQuestion s1 = Some q
/\ selectedOption s1 = Some (correct_answer q)
/\ enabled s1 ClickSubmit = false
/\ handleSubmit s1 = Returned s1
/\ phase (stateOf (handleSubmit s1)) = Presenting 0
/\ score (stateOf (handleSubmit s1)) = 0.
Proof.
cbv zeta. repeat split. left. reflexivity.
Qed.

(** *** The score along a session *)









(** *** adaptiveRetake *)



End QuizFacts.

(* ================================================================= *)
(** ** Facts about the flashcard deck *)

Module FlashcardFacts.

Import Js Types FlashcardsView.
Local Open Scope Z_scope.

Lemma nextIdx_mod (L i : Z) :
0 < L -> 0 <= i < L -> nextIdx (Some L) (Some i) = Some ((i + 1) mod L).
Proof.
intros HL Hi. unfold nextIdx, add, rem.
destruct (Z.eqb_spec L 0) as [->|_]; [lia|].
rewrite Z.rem_mod_nonneg by lia. reflexivity.
Qed.

Lemma prevIdx_mod (L i : Z) :
0 < L -> 0 <= i < L -> prevIdx (Some L) (Some i) = Some ((i - 1 + L) mod L).
Proof.
intros HL Hi. unfold prevIdx, add, sub, rem.
destruct (Z.eqb_spec L 0) as [->|_]; [lia|].
rewrite Z.rem_mod_nonneg by lia. reflexivity.
Qed.

Lemma mod_in_range (L x : Z) : 0 < L -> 0 <= x mod L < L.
Proof. intro HL. apply Z.mod_pos_bound. exact HL. Qed.

Lemma prev_after_next (L i : Z) :
0 < L -> 0 <= i < L -> ((i + 1) mod L - 1 + L) mod L = i.
Proof.
intros HL Hi. destruct (Z.eq_dec (i + 1) L) as [Heq|Hne].
- rewrite Heq, Z.mod_same by lia. rewrite Z.mod_small; lia.
- rewrite (Z.mod_small (i + 1)) by lia.
  replace (i + 1 - 1 + L) with (i + 1 * L) by lia.
  rewrite Z.mod_add by lia. apply Z.mod_small. lia.
Qed.

(** Any action keeps an index that is in range in range, and the deck as it
  is. *)
Lemma act_in_range (s : State) (a : Action) (i : Z) :
0 < Z.of_nat (length (flashcards s)) ->
currentIdx s = Some i -> 0 <= i < Z.of_nat (length (flashcards s)) ->
flashcards (act s a) = flashcards s /\
exists j, currentIdx (act s a) = Some j /\
          0 <= j < Z.of_nat (length (flashcards s)).
Proof.
intros HL Hidx Hi.
destruct a; cbn; try (split; [reflexivity|]; exists i; auto).
unfold timerFires. destruct (pending s) as [|u rest].
- split; [reflexivity|]. exists i; auto.
- cbn. split; [reflexivity|]. rewrite Hidx. unfold len.
  destruct u; cbn [applyUpdate].
  + rewrite nextIdx_mod by assumption. eexists; split; [reflexivity|].
    apply mod_in_range; assumption.
  + rewrite prevIdx_mod by assumption. eexists; split; [reflexivity|].
    apply mod_in_range; assumption.
Qed.

Lemma next_settled (s : State) (i : Z) :
0 < Z.of_nat (length (flashcards s)) ->
currentIdx s = Some i -> 0 <= i < Z.of_nat (length (flashcards s)) ->
pending s = [] ->
currentIdx (next s) = Some ((i + 1) mod Z.of_nat (length (flashcards s)))
/\ pending (next s) = []
/\ flashcards (next s) = flashcards s.
Proof.
intros HL Hidx Hi Hp. unfold next, timerFires, handleNext.
cbn [pending flashcards currentIdx isFlipped]. rewrite Hp. cbn [app].
cbn [pending flashcards currentIdx isFlipped applyUpdate].
unfold len. cbn [flashcards]. rewrite Hidx.
rewrite nextIdx_mod by assumption. auto.
Qed.

Lemma previous_settled (s : State) (i : Z) :
0 < Z.of_nat (length (flashcards s)) ->
currentIdx s = Some i -> 0 <= i < Z.of_nat (length (flashcards s)) ->
pending s = [] ->
currentIdx (previous s)
= Some ((i - 1 + Z.of_nat (length (flashcards s)))
        mod Z.of_nat (length (flashcards s)))
/\ pending (previous s) = []
/\ flashcards (previous s) = flashcards s.
Proof.
intros HL Hidx Hi Hp. unfold previous, timerFires, handlePrev.
cbn [pending flashcards currentIdx isFlipped]. rewrite Hp. cbn [app].
cbn [pending flashcards currentIdx isFlipped applyUpdate].
unfold len. cbn [flashcards]. rewrite Hidx.
rewrite prevIdx_mod by assumption. auto.
Qed.

Lemma actions_in_range (acts : list Action) :
forall (s : State) (i : Z),
  0 < Z.of_nat (length (flashcards s)) ->
  currentIdx s = Some i ->
  0 <= i < Z.of_nat (length (flashcards s)) ->
  exists j, currentIdx (fold_left act acts s) = Some j /\
            0 <= j < Z.of_nat (length (flashcards s)).
Proof.
induction acts as [|a acts IH]; intros s i HL Hidx Hi.
- exists i. auto.
- cbn [fold_left].
  destruct (act_in_range s a i HL Hidx Hi) as (Hf & j & Hj & Hr).
  rewrite <- Hf in *. exact (IH (act s a) j HL Hj Hr).
Qed.

(** C10.  On a deck of [L > 0] cards, at an index [i] in [[0, L)] with no
  timer pending: next moves the index to [(i + 1) mod L], previous to
  [(i - 1 + L) mod L], both in [[0, L)]; previous after next gives [i]
  back; and whatever clicks and timers follow, the index stays in
  [[0, L)]. *)
Theorem deck_navigation_wraps :
forall (s : State) (i : Z),
  let L := Z.of_nat (length (flashcards s)) in
  0 < L ->
  currentIdx s = Some i ->
  0 <= i < L ->
  pending s = [] ->
  currentIdx (next s) = Some ((i + 1) mod L)
  /\ 0 <= (i + 1) mod L < L
  /\ currentIdx (previous s) = Some ((i - 1 + L) mod L)
  /\ 0 <= (i - 1 + L) mod L < L
  /\ currentIdx (previous (next s)) = Some i
  /\ (forall acts : list Action,
        exists j, currentIdx (fold_left act acts s) = Some j /\ 0 <= j < L).
Proof.
intros s i L HL Hidx Hi Hp.
destruct (next_settled s i HL Hidx Hi Hp) as (Hn & Hnp & Hnf).
destruct (previous_settled s i HL Hidx Hi Hp) as (Hv & _ & _).
split; [exact Hn|]. split; [apply mod_in_range; exact HL|].
split; [exact Hv|]. split; [apply mod_in_range; exact HL|].
split.
- assert (HL' : 0 < Z.of_nat (length (flashcards (next s))))
    by (rewrite Hnf; exact HL).
  assert (Hi' : 0 <= (i + 1) mod L < Z.of_nat (length (flashcards (next s))))
    by (rewrite Hnf; apply mod_in_range; exact HL).
  destruct (previous_settled (next s) _ HL' Hn Hi' Hnp) as (Hpn & _ & _).
  rewrite Hpn, Hnf. f_equal. apply prev_after_next; assumption.
- intro acts. exact (actions_in_range acts s i HL Hidx Hi).
Qed.

Lemma deck_navigation_wraps_witness :
let s := Samples.deck3 in
pending s = []
/\ currentIdx (next s) = Some 0
/\ currentIdx (previous s) = Some 1
/\ currentIdx (previous (next s)) = Some 2.
Proof.
intro s.
assert (Hr : 0 <= 2 < Z.of_nat (length (flashcards s))) by (cbn; lia).
destruct (deck_navigation_wraps s 2 eq_refl eq_refl Hr eq_refl)
  as (Hn & _ & Hp & _ & Hpn & _).
split; [reflexivity|]. split; [exact Hn|]. split; [exact Hp|exact Hpn].
Defined.

End FlashcardFacts.

(* ================================================================= *)
(** ** More on [withRetry]: bounds, the general attempt count, delays *)

Module RetryMore.

Import Js Types Gemini RetryFacts Trace.
Local Open Scope string_scope.
Local Open Scope list_scope.
Local Open Scope nat_scope.

(** *** Substrings *)

Lemma prefix_spec (t s : string) :
  String.prefix t s = true <-> exists b, s = (t ++ b)%string.
Proof.
  revert s. induction t as [|c t IH]; intros s.
  - split; [intros _; exists s; reflexivity | intros _; destruct s; reflexivity].
  - destruct s as [|c' s]; cbn.
    + split; [discriminate | intros (b & Hb); discriminate].
    + destruct (ascii_dec c c') as [->|Hne].
      * rewrite IH. split; intros (b & Hb); exists b; [rewrite Hb; reflexivity|].
        inversion Hb; reflexivity.
      * split; [discriminate|]. intros (b & Hb). inversion Hb. congruence.
Qed.

Lemma includes_spec (s t : string) :
  includes s t = true <-> exists a b, s = (a ++ t ++ b)%string.
Proof.
  induction s as [|c s IH]; cbn [includes].
  - destruct (String.prefix t EmptyString) eqn:Hp.
    + split; [|reflexivity]. intros _.
      apply prefix_spec in Hp. destruct Hp as (b & Hb).
      exists EmptyString, b. exact Hb.
    + split; [discriminate|]. intros (a & b & Hab).
      destruct a as [|ca a]; [|discriminate].
      assert (String.prefix t EmptyString = true)
        by (apply prefix_spec; exists b; exact Hab).
      congruence.
  - destruct (String.prefix t (String c s)) eqn:Hp.
    + split; [|reflexivity]. intros _.
      apply prefix_spec in Hp. destruct Hp as (b & Hb).
      exists EmptyString, b. exact Hb.
    + rewrite IH. split.
      * intros (a & b & Hab). exists (String c a), b. rewrite Hab. reflexivity.
      * intros (a & b & Hab). destruct a as [|ca a].
        -- assert (String.prefix t (String c s) = true)
             by (apply prefix_spec; exists b; exact Hab).
           congruence.
        -- inversion Hab. exists a, b. reflexivity.
Qed.

(** X1.  An error is classified as a quota error exactly when it has a message
    and the message contains [429] or [RESOURCE_EXHAUSTED] somewhere,
    whatever stands before and after the marker. *)
Theorem isQuotaError_by_substring :
  forall e : JsError,
    isQuotaError e = true <->
    exists m a b,
      message e = Some m /\
      (m = (a ++ "429" ++ b)%string \/
       m = (a ++ "RESOURCE_EXHAUSTED" ++ b)%string).
Proof.
  intro e. unfold isQuotaError. destruct (message e) as [m|].
  - rewrite orb_true_iff, !includes_spec. split.
    + intros [(a & b & H)|(a & b & H)]; exists m, a, b; auto.
    + intros (m' & a & b & Hm & Hor). injection Hm as <-.
      destruct Hor as [Hor|Hor]; [left|right]; exists a, b; exact Hor.
  - split; [discriminate|]. intros (m & a & b & Hm & _). discriminate.
Qed.

(** *** How many attempts *)

Lemma length_requestsOf_attemptsTrace (sv : Service) (req : Request)
    (k i d : nat) :
  length (requestsOf (attemptsTrace sv req k i d)) = k.
Proof. rewrite requestsOf_attemptsTrace. apply repeat_length. Qed.

(** X2.  Whatever the bound and the service: the call sends at most
    [maxRetries] requests, waits once between two requests and draws one
    random number per wait; with a bound of at least 1 it sends a request
    and raises an error object when it fails; with a bound of 0 it sends
    nothing and raises [undefined]. *)
Theorem withRetry_bounded :
  forall (T : Type) (sv : Service)
         (reply : nat -> Request -> Result JsError T) (req : Request)
         (maxRetries : nat) (w : World),
    let rw := withRetry sv (generateContent reply req) maxRetries w in
    let evs := newEvents w (snd rw) in
    length (requestsOf evs) <= maxRetries
    /\ length (sleepsOf evs) = length (requestsOf evs) - 1
    /\ w_calls (snd rw) = w_calls w + length (requestsOf evs)
    /\ w_draws (snd rw) = w_draws w + length (sleepsOf evs)
    /\ (1 <= maxRetries ->
        1 <= length (requestsOf evs) /\ fst rw <> Throw None)
    /\ (maxRetries = 0 -> rw = (Throw None, w)).
Proof.
  intros T sv reply req n w rw evs. subst evs rw.
  destruct n as [|n].
  - rewrite withRetry_zero. cbn [fst snd]. unfold newEvents.
    rewrite skipn_all. cbn. repeat split; try lia.
  - destruct (withRetry sv (generateContent reply req) (S n) w) as [r w'] eqn:E.
    destruct (withRetry_attempts sv reply req (S n) w r w' ltac:(lia) E)
      as (k & Hk & Hc & Hd & Hl & _ & Hlast).
    cbn [fst snd]. rewrite (newEvents_app _ _ _ Hl).
    rewrite length_requestsOf_attemptsTrace, sleepsOf_attemptsTrace.
    repeat split; try lia.
    intro Hr. subst r.
    destruct (reply (w_calls w + (k - 1)) req);
      [discriminate | destruct Hlast; discriminate].
Qed.

(** X3.  The general success case: when the first [k] attempts fail with
    quota errors, [k] is below the bound and attempt [k+1] returns [v], the
    call returns [v] after exactly [k+1] requests and [k] delays. *)
Theorem withRetry_succeeds_after :
  forall (T : Type) (sv : Service)
         (reply : nat -> Request -> Result JsError T) (req : Request)
         (maxRetries : nat) (w : World) (k : nat) (v : T),
    k < maxRetries ->
    (forall j, j < k ->
       exists e, reply (w_calls w + j) req = Throw e /\ isQuotaError e = true) ->
    reply (w_calls w + k) req = Ok v ->
    exists w',
      withRetry sv (generateContent reply req) maxRetries w = (Ok v, w')
      /\ w_calls w' = w_calls w + k + 1
      /\ length (requestsOf (newEvents w w')) = k + 1
      /\ length (sleepsOf (newEvents w w')) = k.
Proof.
  intros T sv reply req n w k v Hk Hfail Hok.
  destruct (withRetry sv (generateContent reply req) n w) as [r w'] eqn:E.
  destruct (withRetry_attempts sv reply req n w r w' ltac:(lia) E)
    as (k' & Hk' & Hc & Hd & Hl & Hprev & Hlast).
  assert (Heq : k' = k + 1).
  { destruct (Nat.lt_trichotomy (k' - 1) k) as [Hlt|[Heq|Hgt]]; [| lia |].
    - destruct (Hfail (k' - 1) Hlt) as (e & He & Hq).
      rewrite He in Hlast. destruct Hlast as [_ [Hnq|Hend]]; [congruence|lia].
    - destruct (Hprev k ltac:(lia)) as (e & He & _). congruence. }
  subst k'. replace (k + 1 - 1) with k in Hlast by lia.
  rewrite Hok in Hlast. subst r.
  exists w'. split; [reflexivity|]. split; [lia|].
  rewrite (newEvents_app _ _ _ Hl).
  rewrite length_requestsOf_attemptsTrace, sleepsOf_attemptsTrace. lia.
Qed.

Lemma withRetry_succeeds_after_witness :
  exists w',
    withRetry (Samples.svRateLimitedFirst 4)
      (generateContent (reply_graph (Samples.svRateLimitedFirst 4))
         (graphRequest "T")) 6 Samples.w0 = (Ok Samples.sampleGraph, w')
    /\ length (sleepsOf (newEvents Samples.w0 w')) = 4.
Proof.
  assert (Hfail : forall j, j < 4 ->
            exists e,
              reply_graph (Samples.svRateLimitedFirst 4)
                (w_calls Samples.w0 + j) (graphRequest "T") = Throw e
              /\ isQuotaError e = true).
  { intros j Hj. exists Samples.rateLimited. cbn.
    destruct (Nat.leb_spec j 3); [split; reflexivity | lia]. }
  destruct (withRetry_succeeds_after _ (Samples.svRateLimitedFirst 4)
              (reply_graph (Samples.svRateLimitedFirst 4)) (graphRequest "T")
              6 Samples.w0 4 Samples.sampleGraph
              (le_S _ _ (le_n 5)) Hfail eq_refl)
    as (w' & Hr & _ & _ & Hs).
  exists w'. split; assumption.
Defined.

(** X4.  The general exhaustion case: when every one of the [maxRetries]
    attempts fails with a quota error, the call sends exactly [maxRetries]
    requests, waits [maxRetries - 1] times and raises the error of the last
    attempt, unchanged. *)
Theorem withRetry_exhausted :
  forall (T : Type) (sv : Service)
         (reply : nat -> Request -> Result JsError T) (req : Request)
         (maxRetries : nat) (w : World) (last : JsError),
    1 <= maxRetries ->
    (forall j, j < maxRetries ->
       exists e, reply (w_calls w + j) req = Throw e /\ isQuotaError e = true) ->
    reply (w_calls w + (maxRetries - 1)) req = Throw last ->
    exists w',
      withRetry sv (generateContent reply req) maxRetries w
        = (Throw (Some last), w')
      /\ length (requestsOf (newEvents w w')) = maxRetries
      /\ length (sleepsOf (newEvents w w')) = maxRetries - 1.
Proof.
  intros T sv reply req n w last Hn Hfail Hlast'.
  destruct (withRetry sv (generateContent reply req) n w) as [r w'] eqn:E.
  destruct (withRetry_attempts sv reply req n w r w' Hn E)
    as (k & Hk & Hc & Hd & Hl & Hprev & Hlast).
  assert (Heq : k = n).
  { destruct (Hfail (k - 1) ltac:(lia)) as (e & He & Hq).
    rewrite He in Hlast. destruct Hlast as [_ [Hnq|Hend]]; [congruence|lia]. }
  subst k. rewrite Hlast' in Hlast. destruct Hlast as [-> _].
  exists w'. split; [reflexivity|].
  rewrite (newEvents_app _ _ _ Hl).
  rewrite length_requestsOf_attemptsTrace, sleepsOf_attemptsTrace. lia.
Qed.

Lemma withRetry_exhausted_witness :
  exists w',
    withRetry (Samples.svRateLimitedFirst 5)
      (generateContent (reply_graph (Samples.svRateLimitedFirst 5))
         (graphRequest "T")) 5 Samples.w0
      = (Throw (Some Samples.rateLimited), w')
    /\ length (requestsOf (newEvents Samples.w0 w')) = 5.
Proof.
  assert (Hfail : forall j, j < 5 ->
            exists e,
              reply_graph (Samples.svRateLimitedFirst 5)
                (w_calls Samples.w0 + j) (graphRequest "T") = Throw e
              /\ isQuotaError e = true).
  { intros j Hj. exists Samples.rateLimited. cbn.
    destruct (Nat.leb_spec j 4); [split; reflexivity | lia]. }
  destruct (withRetry_exhausted _ (Samples.svRateLimitedFirst 5)
              (reply_graph (Samples.svRateLimitedFirst 5)) (graphRequest "T")
              5 Samples.w0 Samples.rateLimited
              (le_S _ _ (le_S _ _ (le_S _ _ (le_S _ _ (le_n 1))))) Hfail eq_refl)
    as (w' & Hr & Hq & _).
  exists w'. split; assumption.
Defined.

End RetryMore.

(* ================================================================= *)
(** ** Delays and the time a run can spend waiting *)

Module BackoffFacts.

Import Js Types Gemini RetryFacts Trace App PipelineFacts.
Local Open Scope string_scope.
Local Open Scope list_scope.
Local Open Scope nat_scope.

Lemma sleepsOf_app (l1 l2 : list Event) :
  sleepsOf (l1 ++ l2) = sleepsOf l1 ++ sleepsOf l2.
Proof.
  induction l1 as [|[req|ms|err|msg] l1 IH]; cbn; rewrite ?IH; reflexivity.
Qed.








End BackoffFacts.

(* ================================================================= *)
(** ** More on [runPipeline]: blank texts, bounds, sustained throttling *)

Module PipelineMore.

Import Js Types Gemini RetryFacts Trace App PipelineFacts RetryMore BackoffFacts.
Local Open Scope string_scope.
Local Open Scope list_scope.
Local Open Scope nat_scope.

(** *** Blank texts *)

Lemma trimEnd_empty (s : string) :
  trimEnd s = EmptyString <-> allWhite s = true.
Proof.
  induction s as [|c s IH]; cbn [trimEnd allWhite].
  - split; reflexivity.
  - destruct (trimEnd s) as [|c' t] eqn:E.
    + destruct (isWhite c); cbn [andb].
      * rewrite <- IH. split; reflexivity.
      * split; discriminate.
    + split; [discriminate|]. intro H. apply andb_true_iff in H.
      destruct H as [_ H]. apply IH in H. discriminate.
Qed.

Lemma allWhite_trimStart (s : string) : allWhite (trimStart s) = allWhite s.
Proof.
  induction s as [|c s IH]; [reflexivity|]. cbn [trimStart].
  destruct (isWhite c) eqn:E; cbn [allWhite]; rewrite E; [exact IH|reflexivity].
Qed.

(** The guard of [runPipeline] lets a text pass exactly when it has a
    character that is not white space. *)
Lemma nonBlank_allWhite (text : string) : nonBlank text = negb (allWhite text).
Proof.
  unfold nonBlank, trim. rewrite <- (allWhite_trimStart text).
  destruct (trimEnd (trimStart text)) as [|c t] eqn:E.
  - apply trimEnd_empty in E. rewrite E. reflexivity.
  - cbn. destruct (allWhite (trimStart text)) eqn:A; [|reflexivity].
    apply trimEnd_empty in A. congruence.
Qed.

(** On a blank text the run returns at once. *)
Lemma runPipeline_blank (sv : Service) (text : string) (a : State) (w : World) :
  allWhite text = true ->
  runPipeline sv text a w = ({| final := a; seen := []; uncaught := false |}, w).
Proof.
  intro H. unfold runPipeline. fold (nonBlank text).
  rewrite nonBlank_allWhite, H. reflexivity.
Qed.

(** X6.  A run does nothing at all, no request, no state change, nothing
    rendered in between, exactly when every character of the text is white
    space (the empty text included); on any other text it sends at least one
    request. *)
Theorem runPipeline_noop_iff_blank :
  forall (sv : Service) (text : string) (a : State) (w : World),
    (allWhite text = true ->
       runPipeline sv text a w
       = ({| final := a; seen := []; uncaught := false |}, w))
    /\ (allWhite text = false ->
          1 <= length (requestsOf
                         (newEvents w (snd (runPipeline sv text a w))))
          /\ seen (fst (runPipeline sv text a w)) <> []).
Proof.
  intros sv text a w. split; intro H.
  - apply runPipeline_blank. exact H.
  - assert (Hnb : nonBlank text = true) by (rewrite nonBlank_allWhite, H; reflexivity).
    destruct (runPipeline sv text a w) as [run w'] eqn:E.
    destruct (runPipeline_shape sv text a w run w' Hnb E)
      as (n1 & n2 & n3 & Hn1 & _ & _ & Hreq & Hcase).
    cbn [fst snd]. split.
    + rewrite Hreq, !length_app, !repeat_length. lia.
    + destruct Hcase as [(e & pre & _ & _ & _ & -> & _)
                        |[(s & e & pre & _ & _ & _ & _ & -> & _)
                         |[(s & g & e & pre & _ & _ & _ & _ & _ & -> & _)
                          |(s & g & t & _ & _ & _ & _ & _ & ->)]]];
        discriminate.
Qed.

(** *** Bounds on a run *)







(** *** Sustained throttling *)

(** X8.  When the service answers every Summary request with a quota error,
    a run on a text that passes the guard sends exactly three requests, all
    for the summary, waits twice, shows the quota alert and ends in [IDLE]
    with the artifact cells as they were before the run. *)
Theorem runPipeline_gives_up_when_throttled :
  forall (sv : Service) (text : string) (a : State) (w : World),
    nonBlank text = true ->
    (forall k req, exists e,
        reply_summary sv k req = Throw e /\ isQuotaError e = true) ->
    let run := fst (runPipeline sv text a w) in
    let evs := newEvents w (snd (runPipeline sv text a w)) in
    requestsOf evs = repeat (summaryRequest text) 3
    /\ length (sleepsOf evs) = 2
    /\ (exists pre, evs = pre ++ [EvAlert quotaAlert])
    /\ appState (final run) = IDLE
    /\ summaryData (final run) = summaryData a
    /\ kgData (final run) = kgData a
    /\ topics (final run) = topics a.
Proof.
  intros sv text a w Hnb Hall run evs. subst run evs.
  destruct (generateGeneralSummary sv text w) as [r w1] eqn:Hrun.
  destruct (withRetry_attempts sv _ _ 3 w r w1 ltac:(lia) Hrun)
    as (k & Hk & _ & _ & Hl & _ & Hdec).
  destruct (Hall (w_calls w + (k - 1)) (summaryRequest text))
    as (last & Hlast & Hq).
  rewrite Hlast in Hdec. destruct Hdec as [-> [Hnq|Hend]]; [congruence|].
  subst k.
  assert (Hreq : length (requestsOf (newEvents w w1)) = 3)
    by (rewrite (newEvents_app _ _ _ Hl); apply length_requestsOf_attemptsTrace).
  assert (Hsl : length (sleepsOf (newEvents w w1)) = 3 - 1)
    by (rewrite (newEvents_app _ _ _ Hl); apply sleepsOf_attemptsTrace).
  unfold runPipeline. unfold nonBlank in Hnb. rewrite Hnb. cbn [negb].
  unfold bind. rewrite Hrun.
  rewrite pipelineCatch_error, Hq. cbn [fst snd final].
  assert (Hev : newEvents w
            {| w_calls := w_calls w1; w_draws := w_draws w1;
               w_log := w_log w1 ++ [EvConsoleError (Some last); EvAlert quotaAlert] |}
          = newEvents w w1 ++ [EvConsoleError (Some last); EvAlert quotaAlert]).
  { rewrite (newEvents_app _ _ _ Hl). apply newEvents_app. cbn [w_log].
    rewrite Hl, <- app_assoc. reflexivity. }
  rewrite Hev, requestsOf_app, sleepsOf_app, length_app. cbn [requestsOf sleepsOf length].
  rewrite app_nil_r, Hsl.
  split.
  - rewrite (newEvents_app _ _ _ Hl), requestsOf_attemptsTrace. reflexivity.
  - split; [reflexivity|]. split.
    + exists (newEvents w w1 ++ [EvConsoleError (Some last)]).
      rewrite <- app_assoc. reflexivity.
    + repeat split.
Qed.

Lemma runPipeline_gives_up_when_throttled_witness :
  let sv := MoreSamples.svQuotaForever in
  nonBlank "T" = true
  /\ appState (final (fst (runPipeline sv "T" App.initial Samples.w0))) = IDLE
  /\ length (sleepsOf (newEvents Samples.w0
                         (snd (runPipeline sv "T" App.initial Samples.w0)))) = 2.
Proof.
  intro sv. split; [reflexivity|].
  assert (Hall : forall k req, exists e,
             reply_summary MoreSamples.svQuotaForever k req = Throw e
             /\ isQuotaError e = true).
  { intros k req. exists Samples.exhausted. split; reflexivity. }
  pose proof (runPipeline_gives_up_when_throttled MoreSamples.svQuotaForever "T"
                App.initial Samples.w0 eq_refl Hall) as (_ & Hs & _ & Hi & _).
  split; [exact Hi | exact Hs].
Defined.

End PipelineMore.

(* ================================================================= *)
(** ** More on the quiz session: a full play, the completed state *)

Module QuizMore.

Import Js Types Gemini RetryFacts QuizView QuizFacts Play.
Local Open Scope string_scope.
Local Open Scope list_scope.
Local Open Scope nat_scope.

Lemma inb_In (x : string) (xs : list string) : In x xs -> inb x xs = true.
Proof.
  intro H. unfold inb. apply existsb_exists. exists x. split; [exact H|].
  apply String.eqb_refl.
Qed.

(** One question played: pick, check, go on. *)
Lemma play_one (sv : Service) (topic : Topic) (w : World)
    (pre : list QuizQuestion) (q : QuizQuestion) (rest : list QuizQuestion)
    (a : string) (c : nat) :
  answerable q a ->
  let s := {| questions := pre ++ q :: rest; currentIdx := length pre;
              selectedOption := None; isAnswered := false; score := c;
              isFinishing := false; isAdapting := false |} in
  let c' := c + (if String.eqb a (correct_answer q) then 1 else 0) in
  runEvents sv topic [ClickOption a; ClickSubmit; ClickNext] (s, w) =
  (match rest with
   | [] => {| questions := pre ++ q :: rest; currentIdx := length pre;
              selectedOption := Some a; isAnswered := true; score := c';
              isFinishing := true; isAdapting := false |}
   | _ :: _ => {| questions := pre ++ q :: rest; currentIdx := length pre + 1;
                  selectedOption := None; isAnswered := false; score := c';
                  isFinishing := false; isAdapting := false |}
   end, w).
Proof.
  intros [Hin Ht] s c'. subst s.
  assert (Hq : nth_error (pre ++ q :: rest) (length pre) = Some q).
  { rewrite nth_error_app2 by lia. rewrite Nat.sub_diag. reflexivity. }
  pose (s1 := {| questions := pre ++ q :: rest; currentIdx := length pre;
                 selectedOption := Some a; isAnswered := false; score := c;
                 isFinishing := false; isAdapting := false |}).
  pose (s2 := {| questions := pre ++ q :: rest; currentIdx := length pre;
                 selectedOption := Some a; isAnswered := true; score := c';
                 isFinishing := false; isAdapting := false |}).
  assert (E1 : forall s0, s0 = {| questions := pre ++ q :: rest;
                                  currentIdx := length pre;
                                  selectedOption := None; isAnswered := false;
                                  score := c; isFinishing := false;
                                  isAdapting := false |} ->
                          dispatch sv topic (s0, w) (ClickOption a) = (s1, w)).
  { intros s0 ->. unfold dispatch, enabled, currentQuestion.
    cbn [isFinishing questions currentIdx isAnswered]. rewrite Hq.
    rewrite (inb_In _ _ Hin). reflexivity. }
  assert (E2 : dispatch sv topic (s1, w) ClickSubmit = (s2, w)).
  { unfold dispatch, enabled, currentQuestion.
    cbn [s1 isFinishing questions currentIdx isAnswered selectedOption].
    rewrite Hq, Ht. cbn [negb andb].
    rewrite (handleSubmit_selection s1 a q eq_refl Ht Hq).
    cbn [stateOf s1 questions currentIdx score isFinishing isAdapting].
    subst s2 c'. destruct (a =? correct_answer q)%string;
      rewrite ?Nat.add_0_r; reflexivity. }
  unfold runEvents. cbn [fold_left].
  rewrite (E1 _ eq_refl), E2. clear E1 E2. subst s1 s2.
  unfold dispatch, enabled, currentQuestion.
  cbn [isFinishing questions currentIdx isAnswered]. rewrite Hq.
  unfold handleNext. cbn [questions currentIdx].
  rewrite length_app. cbn [length].
  destruct rest as [|q' rest]; cbn [length].
  - destruct (Nat.ltb_spec (length pre) (length pre + 1 - 1)); [lia|].
    reflexivity.
  - destruct (Nat.ltb_spec (length pre) (length pre + S (S (length rest)) - 1));
      [|lia].
    reflexivity.
Qed.

Lemma runEvents_app (sv : Service) (topic : Topic) (e1 e2 : list UiEvent)
    (sw : State * World) :
  runEvents sv topic (e1 ++ e2) sw
  = runEvents sv topic e2 (runEvents sv topic e1 sw).
Proof. unfold runEvents. apply fold_left_app. Qed.

(** The rest of a play, from the question after [pre] on. *)
Lemma play_rest (sv : Service) (topic : Topic) (w : World) :
  forall (rest : list QuizQuestion) (answers : list string)
         (pre : list QuizQuestion) (c : nat),
    rest <> [] ->
    Forall2 answerable rest answers ->
    let s := {| questions := pre ++ rest; currentIdx := length pre;
                selectedOption := None; isAnswered := false; score := c;
                isFinishing := false; isAdapting := false |} in
    let sw' := runEvents sv topic (answerAll answers) (s, w) in
    isFinishing (fst sw') = true
    /\ score (fst sw') = c + correctCount rest answers
    /\ questions (fst sw') = pre ++ rest
    /\ currentIdx (fst sw') = length pre + length rest - 1
    /\ snd sw' = w.
Proof.
  induction rest as [|q rest IH]; intros answers pre c Hne HF; [congruence|].
  inversion HF as [|q0 a rest0 answers' Ha HF']; subst.
  cbv zeta. unfold answerAll. cbn [flat_map].
  change (flat_map (fun a0 => [ClickOption a0; ClickSubmit; ClickNext]) answers')
    with (answerAll answers').
  change ([ClickOption a; ClickSubmit; ClickNext] ++ answerAll answers')
    with (([ClickOption a; ClickSubmit; ClickNext]) ++ answerAll answers').
  rewrite runEvents_app.
  rewrite (play_one sv topic w pre q rest a c Ha).
  destruct rest as [|q' rest].
  - inversion HF'; subst. cbn [answerAll flat_map runEvents fold_left fst snd
                               isFinishing score questions currentIdx
                               correctCount length].
    repeat split; lia.
  - specialize (IH answers' (pre ++ [q])
                  (c + (if (a =? correct_answer q)%string then 1 else 0))
                  ltac:(discriminate) HF').
    cbv zeta in IH. rewrite length_app in IH. cbn [length] in IH.
    rewrite <- app_assoc in IH. cbn [app] in IH.
    destruct IH as (H1 & H2 & H3 & H4 & H5).
    repeat split; try assumption.
    + rewrite H2. cbn [correctCount]. lia.
    + rewrite H4. cbn [length]. lia.
Qed.

(** X9.  A full play.  On a non-empty quiz, a user who answers every question
    in turn with one of its options (not the empty string), checks it and
    goes on, ends on the result screen with a score equal to the number of
    answers that are the [correct_answer] of their question; the questions
    are untouched and nothing is sent to the service. *)
Theorem full_play_scores_correct_answers :
  forall (sv : Service) (topic : Topic) (w : World)
         (qs : list QuizQuestion) (answers : list string),
    qs <> [] ->
    Forall2 answerable qs answers ->
    let sw' := runEvents sv topic (answerAll answers) (initial qs, w) in
    phase (fst sw') = Completed (correctCount qs answers)
    /\ score (fst sw') = correctCount qs answers
    /\ questions (fst sw') = qs
    /\ snd sw' = w.
Proof.
  intros sv topic w qs answers Hne HF.
  destruct (play_rest sv topic w qs answers [] 0 Hne HF)
    as (Hfin & Hscore & Hqs & _ & Hw).
  cbv zeta. change (initial qs) with
    {| questions := [] ++ qs; currentIdx := length (@nil QuizQuestion);
       selectedOption := None; isAnswered := false; score := 0;
       isFinishing := false; isAdapting := false |}.
  repeat split; try assumption.
  unfold phase. rewrite Hfin, Hscore. reflexivity.
Qed.

Lemma full_play_scores_correct_answers_witness :
  let qs := [Samples.goodQuestion; Samples.strayQuestion] in
  let answers := ["Merge sort"; "Heap sort"] in
  qs <> [] /\ Forall2 answerable qs answers
  /\ score (fst (runEvents (Samples.svAllOk []) Samples.sampleTopic
                   (answerAll answers) (initial qs, Samples.w0))) = 1.
Proof.
  intros qs answers.
  assert (Hne : qs <> []) by discriminate.
  assert (HF : Forall2 answerable qs answers).
  { constructor; [split; [left; reflexivity | reflexivity]|].
    constructor; [split; [right; left; reflexivity | reflexivity]|].
    constructor. }
  split; [exact Hne|]. split; [exact HF|].
  exact (proj1 (proj2 (full_play_scores_correct_answers (Samples.svAllOk [])
                         Samples.sampleTopic Samples.w0 qs answers Hne HF))).
Defined.




End QuizMore.

(* ================================================================= *)
(** ** More on the flashcard deck: where any sequence of moves ends *)

Module FlashcardMore.

Import Js Types FlashcardsView FlashcardFacts Moves.
Local Open Scope Z_scope.

Lemma net_app (us vs : list IdxUpdate) : net (us ++ vs) = net us + net vs.
Proof.
  induction us as [|[|] us IH]; cbn [app net]; rewrite ?IH; lia.
Qed.

(** One action keeps the index in range and keeps the index plus the moves
    still pending in step with the moves asked for. *)
Lemma act_position (s : State) (a : Action) (j t : Z) :
  let L := Z.of_nat (length (flashcards s)) in
  0 < L ->
  currentIdx s = Some j -> 0 <= j < L ->
  (j + net (pending s)) mod L = t mod L ->
  flashcards (act s a) = flashcards s /\
  exists j',
    currentIdx (act s a) = Some j' /\ 0 <= j' < L /\
    (j' + net (pending (act s a))) mod L = (t + clicks [a]) mod L.
Proof.
  intros L HL Hidx Hj Hinv. destruct a; cbn [act clicks].
  - (* next *)
    split; [reflexivity|]. exists j. cbn. rewrite net_app. cbn [net].
    repeat split; try tauto.
    replace (j + (net (pending s) + (1 + 0))) with ((j + net (pending s)) + 1) by lia.
    rewrite <- Zplus_mod_idemp_l, Hinv, Zplus_mod_idemp_l. f_equal; lia.
  - (* previous *)
    split; [reflexivity|]. exists j. cbn. rewrite net_app. cbn [net].
    repeat split; try tauto.
    replace (j + (net (pending s) + (-1 + 0))) with ((j + net (pending s)) + -1)
      by lia.
    rewrite <- Zplus_mod_idemp_l, Hinv, Zplus_mod_idemp_l. f_equal; lia.
  - (* flip *)
    split; [reflexivity|]. exists j. cbn. rewrite Z.add_0_r. tauto.
  - (* a timer fires *)
    rewrite Z.add_0_r. unfold timerFires.
    destruct (pending s) as [|u rest] eqn:Hp.
    + split; [reflexivity|]. exists j. rewrite Hp. tauto.
    + cbn [flashcards currentIdx pending]. split; [reflexivity|].
      rewrite Hidx. unfold len. fold L. rewrite <- Hinv. cbn [net] in *.
      destruct u; cbn [applyUpdate net].
      * rewrite nextIdx_mod by assumption. eexists. split; [reflexivity|].
        split; [apply mod_in_range; exact HL|].
        rewrite Zplus_mod_idemp_l. f_equal; lia.
      * rewrite prevIdx_mod by assumption. eexists. split; [reflexivity|].
        split; [apply mod_in_range; exact HL|].
        rewrite Zplus_mod_idemp_l.
        replace (j - 1 + L + net rest) with (j + (-1 + net rest) + 1 * L) by lia.
        apply Z_mod_plus_full.
Qed.

Lemma acts_position (acts : list Action) :
  forall (s : State) (j t : Z),
    let L := Z.of_nat (length (flashcards s)) in
    0 < L ->
    currentIdx s = Some j -> 0 <= j < L ->
    (j + net (pending s)) mod L = t mod L ->
    flashcards (fold_left act acts s) = flashcards s /\
    exists j',
      currentIdx (fold_left act acts s) = Some j' /\ 0 <= j' < L /\
      (j' + net (pending (fold_left act acts s))) mod L
      = (t + clicks acts) mod L.
Proof.
  induction acts as [|a acts IH]; intros s j t L HL Hidx Hj Hinv.
  - cbn. split; [reflexivity|]. exists j. rewrite Z.add_0_r. tauto.
  - cbn [fold_left].
    destruct (act_position s a j t HL Hidx Hj Hinv)
      as (Hf & j1 & Hidx1 & Hj1 & Hinv1).
    subst L. rewrite <- Hf in *.
    destruct (IH (act s a) j1 (t + clicks [a]) HL Hidx1 Hj1 Hinv1)
      as (Hf' & j' & Hidx' & Hj' & Hinv').
    split; [exact Hf'|]. exists j'. repeat split; try tauto.
    rewrite Hinv'. f_equal. destruct a; cbn [clicks]; lia.
Qed.

(** X11.  On a deck of [L > 0] cards, from an index [i] in [[0, L)] with no
    timer pending, after any sequence of clicks on next, previous and the
    card, and of timers firing, in any order: the deck is unchanged, the
    index is in [[0, L)], and once no timer is pending the index is
    [(i + nexts - previouses) mod L], however the clicks and the timers were
    interleaved. *)
Theorem deck_position_after_any_moves :
  forall (s : State) (i : Z) (acts : list Action),
    let L := Z.of_nat (length (flashcards s)) in
    let s' := fold_left act acts s in
    0 < L ->
    currentIdx s = Some i ->
    0 <= i < L ->
    pending s = [] ->
    flashcards s' = flashcards s
    /\ exists j,
         currentIdx s' = Some j /\ 0 <= j < L
         /\ (pending s' = [] -> j = (i + clicks acts) mod L).
Proof.
  intros s i acts L s' HL Hidx Hi Hp.
  assert (Hinv : (i + net (pending s)) mod L = i mod L)
    by (rewrite Hp; cbn [net]; f_equal; lia).
  destruct (acts_position acts s i i HL Hidx Hi Hinv)
    as (Hf & j & Hidx' & Hj & Hinv').
  split; [exact Hf|]. exists j. repeat split; try tauto.
  intro Hp'. fold s' in Hinv'. rewrite Hp' in Hinv'. cbn [net] in Hinv'.
  rewrite Z.add_0_r in Hinv'. fold L in Hinv'. rewrite <- Hinv'. symmetry.
  apply Z.mod_small. exact Hj.
Qed.

(** Two quick clicks on next before any timer fires, then the two timers:
    from the last of three cards to the second. *)
Lemma deck_position_after_any_moves_witness :
  let s := Samples.deck3 in
  pending s = []
  /\ exists j,
       currentIdx (fold_left act [Next; Next; Timer; Flip; Timer] s) = Some j
       /\ j = 1.
Proof.
  intro s.
  assert (Hr : 0 <= 2 < Z.of_nat (length (flashcards s))) by (cbn; lia).
  destruct (deck_position_after_any_moves s 2 [Next; Next; Timer; Flip; Timer]
              eq_refl eq_refl Hr eq_refl) as (_ & j & Hj & _ & Hpos).
  split; [reflexivity|]. exists j. split; [exact Hj|].
  exact (Hpos eq_refl).
Defined.

End FlashcardMore.

(* ================================================================= *)
(** ** Facts about the file service *)

Module FileFacts.

Import Js Types Gemini Trace FileService FileSpec PipelineMore.
Local Open Scope list_scope.
Local Open Scope nat_scope.
Local Open Scope string_scope.

(** *** The readers on concrete files *)

Example extract_notes :
  extractTextFromFile SampleFiles.notes = Ok "Sorting".
Proof. reflexivity. Qed.

Example extract_picture :
  extractTextFromFile SampleFiles.picture = Throw unsupportedFormat.
Proof. reflexivity. Qed.

Example extract_deck :
  extractTextFromFile SampleFiles.deck
  = Ok ("--- Slide 1 ---" ++ nl ++ "Merge  sort " ++ nl ++ nl
        ++ "--- Slide 2 ---" ++ nl ++ nl ++ nl
        ++ "--- Slide 10 ---" ++ nl ++ "Ten " ++ nl ++ nl).
Proof. reflexivity. Qed.

Example extract_emptyDeck :
  extractTextFromFile SampleFiles.emptyDeck = Throw noTextContent.
Proof. reflexivity. Qed.

Example extract_scan :
  extractTextFromFile SampleFiles.scan = Ok (nl ++ " " ++ nl).
Proof. reflexivity. Qed.

(** *** The extension *)

Lemma split_noDot (s : string) : noDot s = true -> split "." s = [s].
Proof.
  induction s as [|c s IH]; cbn [noDot split]; [reflexivity|].
  intro H. apply andb_true_iff in H. destruct H as [Hc Hs].
  apply negb_true_iff in Hc. rewrite Hc, (IH Hs). reflexivity.
Qed.

Lemma split_nonempty (sep : ascii) (s : string) : split sep s <> [].
Proof.
  destruct s as [|c s]; cbn [split]; [discriminate|].
  destruct (Ascii.eqb c sep); [discriminate|].
  destruct (split sep s); discriminate.
Qed.

Lemma pop_cons (x : string) (xs : list string) :
  xs <> [] -> pop (x :: xs) = pop xs.
Proof. destruct xs; [congruence | reflexivity]. Qed.

Lemma split_dotted_two (base rest : string) :
  2 <= length (split "." (base ++ String "." rest)).
Proof.
  induction base as [|c base IH]; cbn [String.append split].
  - rewrite Ascii.eqb_refl. cbn [length].
    pose proof (split_nonempty "." rest) as Hne.
    destruct (split "." rest); [congruence | cbn [length]; lia].
  - destruct (Ascii.eqb c ".").
    + cbn [length]. lia.
    + destruct (split "." (base ++ String "." rest)) as [|q qs];
        cbn [length] in *; lia.
Qed.

Lemma pop_split_dotted (base ext : string) :
  noDot ext = true -> pop (split "." (base ++ "." ++ ext)) = Some ext.
Proof.
  intro H. change ("." ++ ext) with (String "." ext).
  induction base as [|c base IH]; cbn [String.append split].
  - rewrite Ascii.eqb_refl, (split_noDot _ H). reflexivity.
  - pose proof (split_dotted_two base ext) as Hlen.
    destruct (Ascii.eqb c ".").
    + rewrite pop_cons by apply split_nonempty. exact IH.
    + destruct (split "." (base ++ String "." ext)) as [|piece pieces].
      * cbn in Hlen. lia.
      * destruct pieces as [|p2 pieces]; [cbn in Hlen; lia|]. exact IH.
Qed.

(** X12.  The reader is chosen by the text after the last dot of the file
    name, or by the whole name when it has no dot, compared without regard
    to case: [pdf] goes to the PDF reader, [pptx] to the slide reader, [txt],
    [md] and [text] are read as text, and anything else is refused with
    "Unsupported file format", whatever the file contains. *)
Theorem extractTextFromFile_by_last_extension :
  forall (file : File) (base ext : string),
    noDot ext = true ->
    name file = base ++ "." ++ ext \/ name file = ext ->
    extensionOf (name file) = Some (toLowerCase ext)
    /\ extractTextFromFile file =
       match toLowerCase ext with
       | "pdf" => extractTextFromPDF file
       | "pptx" => extractTextFromPPTX file
       | "txt" | "md" | "text" => readFileAsText file
       | _ => Throw unsupportedFormat
       end.
Proof.
  intros file base ext Hext Hname.
  assert (He : extensionOf (name file) = Some (toLowerCase ext)).
  { unfold extensionOf. destruct Hname as [-> | ->].
    - rewrite (pop_split_dotted _ _ Hext). reflexivity.
    - rewrite (split_noDot _ Hext). reflexivity. }
  split; [exact He|].
  unfold extractTextFromFile. rewrite He. reflexivity.
Qed.

Lemma extractTextFromFile_by_last_extension_witness :
  extractTextFromFile SampleFiles.notes = readFileAsText SampleFiles.notes
  /\ extractTextFromFile SampleFiles.picture = Throw unsupportedFormat.
Proof.
  split.
  - exact (proj2 (extractTextFromFile_by_last_extension SampleFiles.notes
                    "Lecture.Notes" "TXT" eq_refl (or_introl eq_refl))).
  - exact (proj2 (extractTextFromFile_by_last_extension SampleFiles.picture
                    "slide" "png" eq_refl (or_introl eq_refl))).
Defined.

(** *** Strings built by a loop *)

Lemma append_nil_r (s : string) : s ++ EmptyString = s.
Proof. induction s as [|c s IH]; cbn; rewrite ?IH; reflexivity. Qed.

Lemma append_assoc (a b c : string) : (a ++ b) ++ c = a ++ (b ++ c).
Proof. induction a as [|x a IH]; cbn; rewrite ?IH; reflexivity. Qed.

(** A loop [acc += f x] over a list builds [acc] followed by the pieces. *)
Lemma fold_left_append {A : Type} (f : A -> string) (xs : list A)
    (acc : string) :
  fold_left (fun acc x => acc ++ f x) xs acc = acc ++ concatAll (map f xs).
Proof.
  revert acc. induction xs as [|x xs IH]; intro acc; cbn [fold_left map concatAll fold_right].
  - rewrite append_nil_r. reflexivity.
  - rewrite IH, append_assoc. reflexivity.
Qed.

Lemma allWhite_app (a b : string) :
  allWhite (a ++ b) = allWhite a && allWhite b.
Proof.
  induction a as [|c a IH]; cbn [String.append allWhite]; [reflexivity|].
  rewrite IH, andb_assoc. reflexivity.
Qed.

Lemma allWhite_join_space (xs : list string) :
  allWhite (join " " xs) = forallb allWhite xs.
Proof.
  induction xs as [|x xs IH]; [reflexivity|].
  destruct xs as [|y xs].
  - cbn. rewrite andb_true_r. reflexivity.
  - change (join " " (x :: y :: xs)) with (x ++ " " ++ join " " (y :: xs)).
    rewrite !allWhite_app, IH. reflexivity.
Qed.

Lemma pdfText_concat (pages : list (list string)) :
  pdfText pages = concatAll (map (fun strings => join " " strings ++ nl) pages).
Proof. unfold pdfText. rewrite fold_left_append. reflexivity. Qed.

(** X13.  The text extracted from a PDF is blank (white space only, or empty)
    exactly when no text item of any page has a character that is not white
    space: so it is for a document without pages and for a scan without text
    layer. *)
Theorem pdfText_blank_iff_no_text :
  forall pages : list (list string),
    allWhite (pdfText pages) = forallb (forallb allWhite) pages.
Proof.
  intro pages. rewrite pdfText_concat.
  induction pages as [|strings pages IH]; [reflexivity|].
  cbn [map concatAll fold_right forallb].
  change (fold_right String.append EmptyString
            (map (fun strings0 => join " " strings0 ++ nl) pages))
    with (concatAll (map (fun strings0 => join " " strings0 ++ nl) pages)).
  rewrite !allWhite_app, IH, allWhite_join_space.
  change (allWhite nl) with true. rewrite andb_true_r. reflexivity.
Qed.

(** *** The slides of a presentation *)

Lemma insertSorted_perm (compare : string -> string -> Num) (x : string)
    (l : list string) :
  Permutation (x :: l) (insertSorted compare x l).
Proof.
  induction l as [|y l IH]; cbn [insertSorted]; [reflexivity|].
  destruct (after compare y x); [reflexivity|].
  rewrite perm_swap. constructor. exact IH.
Qed.

Lemma sort_perm_acc (compare : string -> string -> Num) (xs acc : list string) :
  Permutation (xs ++ acc)%list
    (fold_left (fun sorted x => insertSorted compare x sorted) xs acc).
Proof.
  revert acc. induction xs as [|x xs IH]; intro acc; cbn [fold_left app].
  - reflexivity.
  - rewrite <- IH. rewrite <- (insertSorted_perm compare x acc).
    apply Permutation_middle.
Qed.

Lemma sort_perm (compare : string -> string -> Num) (xs : list string) :
  Permutation xs (sort compare xs).
Proof.
  unfold sort. rewrite <- (sort_perm_acc compare xs []).
  rewrite app_nil_r. reflexivity.
Qed.




Lemma pptxText_concat (entries : list ZipEntry) :
  pptxText entries
  = concatAll (map (slideBlock entries) (slideFiles entries)).
Proof. unfold pptxText. rewrite fold_left_append. reflexivity. Qed.



(** A text that starts with a character that is not white space is not
    blank. *)
Lemma allWhite_head (c : ascii) (s : string) :
  isWhite c = false -> allWhite (String c s) = false.
Proof. intro H. cbn [allWhite]. rewrite H. reflexivity. Qed.

(** X15.  For an archive that loads, the slide reader fails with "No text
    content found in PPTX file." exactly when the archive has no entry named
    as a slide.  As soon as there is one it returns a text, which is never
    blank since each slide contributes its header, even when no slide has any
    text. *)
Theorem extractTextFromPPTX_fails_iff_no_slide :
  forall (file : File) (entries : list ZipEntry),
    zipEntries file = Ok entries ->
    (filter isSlide (map path entries) = [] ->
       extractTextFromPPTX file = Throw noTextContent)
    /\ (filter isSlide (map path entries) <> [] ->
          extractTextFromPPTX file = Ok (pptxText entries)
          /\ allWhite (pptxText entries) = false).
Proof.
  intros file entries Hzip. unfold extractTextFromPPTX. rewrite Hzip.
  split; intro H.
  - assert (Hs : slideFiles entries = []).
    { unfold slideFiles. rewrite H. reflexivity. }
    rewrite pptxText_concat, Hs. reflexivity.
  - assert (Hs : slideFiles entries <> []).
    { intro Hs. apply H. apply Permutation_nil.
      rewrite <- Hs. symmetry. apply sort_perm. }
    assert (Hw : allWhite (pptxText entries) = false).
    { rewrite pptxText_concat.
      destruct (slideFiles entries) as [|p ps]; [congruence|].
      cbn [map concatAll fold_right]. unfold slideBlock at 1.
      cbn [String.append]. apply allWhite_head. reflexivity. }
    fold (App.nonBlank (pptxText entries)).
    rewrite nonBlank_allWhite, Hw. split; reflexivity.
Qed.

Lemma extractTextFromPPTX_fails_iff_no_slide_witness :
  extractTextFromPPTX SampleFiles.emptyDeck = Throw noTextContent
  /\ exists text, extractTextFromPPTX SampleFiles.deck = Ok text.
Proof.
  split.
  - exact (proj1 (extractTextFromPPTX_fails_iff_no_slide SampleFiles.emptyDeck
                    _ eq_refl) eq_refl).
  - eexists.
    refine (proj1 (proj2 (extractTextFromPPTX_fails_iff_no_slide
                            SampleFiles.deck _ eq_refl) _)).
    discriminate.
Defined.

End FileFacts.

(* ================================================================= *)
(** ** Facts about the other handlers of the application *)

Module AppFlowFacts.

Import Js Types Gemini Trace RetryFacts App PipelineFacts PipelineMore.
Import FileService FileSpec FileFacts AppFlow.
Local Open Scope string_scope.
Local Open Scope list_scope.
Local Open Scope nat_scope.

(** *** The word counter *)

Lemma splitWhite_nonempty (b : bool) (s : string) : splitWhite b s <> [].
Proof.
  revert b. induction s as [|c s IH]; intro b; cbn [splitWhite]; [discriminate|].
  destruct (isWhite c).
  - destruct b; [apply IH | discriminate].
  - destruct (splitWhite false s); discriminate.
Qed.

Lemma words_none_iff_allWhite (b : bool) (s : string) :
  filter truthy (splitWhite b s) = [] <-> allWhite s = true.
Proof.
  revert b. induction s as [|c s IH]; intro b; cbn [splitWhite allWhite].
  - cbn. split; reflexivity.
  - destruct (isWhite c); cbn [andb].
    + destruct b; [apply IH|]. cbn [filter truthy]. apply IH.
    + split; [|discriminate].
      destruct (splitWhite false s) as [|piece pieces]; cbn; discriminate.
Qed.

(** X16.  The word counter under the text area shows 0 exactly when the text
    is blank, that is exactly when "Analyze Materials" is disabled for want
    of text: the button is enabled if and only if the counter shows at least
    one word (and no file is being processed). *)
Theorem analyze_enabled_iff_words :
  forall a : State,
    appState a = IDLE ->
    (wordCount (lectureText a) = 0 <-> nonBlank (lectureText a) = false)
    /\ (offered a ClickAnalyze = true <->
        1 <= wordCount (lectureText a) /\ isProcessingFile a = false).
Proof.
  intros a Hidle.
  assert (Hw : wordCount (lectureText a) = 0 <-> nonBlank (lectureText a) = false).
  { unfold wordCount. rewrite length_zero_iff_nil, words_none_iff_allWhite.
    rewrite nonBlank_allWhite, negb_false_iff. reflexivity. }
  split; [exact Hw|].
  unfold offered. rewrite Hidle. fold (nonBlank (lectureText a)).
  rewrite andb_true_iff, negb_true_iff.
  split; intros [H1 H2]; split; try assumption.
  - destruct (Nat.eq_dec (wordCount (lectureText a)) 0) as [E|E]; [|lia].
    apply (proj1 Hw) in E. congruence.
  - destruct (nonBlank (lectureText a)) eqn:E; [reflexivity|].
    pose proof (proj2 Hw eq_refl). lia.
Qed.

Lemma analyze_enabled_iff_words_witness :
  let a := setLectureText ("  merge " ++ nl ++ " sort ") App.initial in
  appState a = IDLE /\ wordCount (lectureText a) = 2
  /\ offered a ClickAnalyze = true.
Proof.
  intro a. split; [reflexivity|]. split; [reflexivity|].
  apply (proj2 (proj2 (analyze_enabled_iff_words a eq_refl))).
  split; [vm_compute; lia | reflexivity].
Defined.

(** *** Uploading a file *)

(** X17.  When the text of a file cannot be extracted, [handleFileChange]
    writes the error to the console, shows "Error reading file: " followed by
    the message of the error ([undefined] for a failed read, whose error is an
    event without message), forgets the file name and clears the processing
    flag; it sends no request and leaves the page, the text and the artifacts
    as they were. *)
Theorem upload_failure_is_reported :
  forall (sv : Service) (file : File) (a : State) (w : World) (err : JsError),
    extractTextFromFile file = Throw err ->
    let a' := fst (handleFileChange sv (Some file) a w) in
    let w' := snd (handleFileChange sv (Some file) a w) in
    newEvents w w'
    = [EvConsoleError (Some err);
       EvAlert ("Error reading file: " ++ showOpt (message err))%string]
    /\ w_calls w' = w_calls w
    /\ uploadedFileName a' = None
    /\ isProcessingFile a' = false
    /\ appState a' = appState a
    /\ lectureText a' = lectureText a
    /\ summaryData a' = summaryData a
    /\ kgData a' = kgData a
    /\ topics a' = topics a
    /\ (err = progressEvent ->
        alertsOf (newEvents w w') = ["Error reading file: undefined"]).
Proof.
  intros sv file a w err Hex a' w'. subst a' w'.
  unfold handleFileChange. rewrite Hex.
  unfold fileCatch, bind, emit, ret. cbn [fst snd].
  split.
  - apply newEvents_app. cbn [w_log]. rewrite <- app_assoc. reflexivity.
  - repeat split. intros ->.
    erewrite newEvents_app; [|cbn [w_log]; rewrite <- app_assoc; reflexivity].
    reflexivity.
Qed.

Lemma upload_failure_is_reported_witness :
  alertsOf (newEvents Samples.w0
              (snd (handleFileChange (Samples.svAllOk []) (Some SampleFiles.picture)
                      App.initial Samples.w0)))
  = ["Error reading file: Unsupported file format"].
Proof.
  pose proof (upload_failure_is_reported (Samples.svAllOk []) SampleFiles.picture
                App.initial Samples.w0 unsupportedFormat eq_refl) as (H & _).
  cbv zeta in H. rewrite H. reflexivity.
Defined.

(** X18.  When the extracted text is blank, the upload ends without a
    request, an alert or a line on the console: the page and the artifacts
    stay as they are, the text area holds the blank text, and the name of the
    file stays displayed.  So it is for a PDF none of whose text items has a
    character that is not white space. *)
Theorem upload_of_blank_text_is_silent :
  forall (sv : Service) (file : File) (a : State) (w : World) (text : string),
    extractTextFromFile file = Ok text ->
    allWhite text = true ->
    handleFileChange sv (Some file) a w
    = (setIsProcessingFile false
         (setLectureText text
            (setUploadedFileName (Some (name file))
               (setIsProcessingFile true a))), w).
Proof.
  intros sv file a w text Hex Hblank.
  unfold handleFileChange. rewrite Hex. unfold bind.
  rewrite (runPipeline_blank sv text _ w Hblank).
  reflexivity.
Qed.

Lemma upload_of_blank_text_is_silent_witness :
  let aw := handleFileChange (Samples.svAllOk []) (Some SampleFiles.scan)
              App.initial Samples.w0 in
  snd aw = Samples.w0
  /\ appState (fst aw) = IDLE
  /\ uploadedFileName (fst aw) = Some "scan.pdf".
Proof.
  intro aw. subst aw.
  rewrite (upload_of_blank_text_is_silent (Samples.svAllOk []) SampleFiles.scan
             App.initial Samples.w0 _ eq_refl eq_refl).
  repeat split.
Defined.

(** *** Starting a quiz *)

Lemma alertsOf_app (l1 l2 : list Event) :
  alertsOf (l1 ++ l2) = alertsOf l1 ++ alertsOf l2.
Proof.
  induction l1 as [|[req|ms|err|msg] l1 IH]; cbn; rewrite ?IH; reflexivity.
Qed.

Lemma alertsOf_attemptsTrace (sv : Service) (req : Request) (k i d : nat) :
  alertsOf (attemptsTrace sv req k i d) = [].
Proof.
  revert i d. induction k as [|k IH]; intros i d; [reflexivity|].
  cbn [attemptsTrace alertsOf]. destruct k as [|k]; [reflexivity|].
  cbn [alertsOf]. apply IH.
Qed.

(** X19.  [handleStartQuiz] records the topic and never touches the text or
    the artifacts, and it never shows an alert.  When the quiz is generated
    the quiz view opens on it; when the generation fails the page goes back
    to the topics with the quiz that was there before, and the only trace of
    the failure is a line on the console. *)
Theorem handleStartQuiz_outcomes :
  forall (sv : Service) (topic : Topic) (a : State) (w : World),
    let a' := fst (handleStartQuiz sv topic a w) in
    let w' := snd (handleStartQuiz sv topic a w) in
    selectedTopic a' = Some topic
    /\ lectureText a' = lectureText a
    /\ summaryData a' = summaryData a
    /\ kgData a' = kgData a
    /\ topics a' = topics a
    /\ alertsOf (newEvents w w') = []
    /\ (forall resp,
          fst (generateQuiz sv topic None w) = Ok resp ->
          appState a' = QUIZ_VIEW /\ currentQuiz a' = quiz resp)
    /\ (forall err,
          fst (generateQuiz sv topic None w) = Throw err ->
          appState a' = TOPICS_VIEW
          /\ currentQuiz a' = currentQuiz a
          /\ exists pre, w_log w' = pre ++ [EvConsoleError err]).
Proof.
  intros sv topic a w a' w'. subst a' w'.
  unfold handleStartQuiz, bind.
  destruct (generateQuiz sv topic None w) as [r w1] eqn:E.
  destruct (withRetry_attempts sv _ _ 3 w r w1 ltac:(lia) E)
    as (k & _ & _ & _ & Hl & _).
  destruct r as [resp|err]; cbn [fst snd emit ret];
    (split; [reflexivity|]); (split; [reflexivity|]); (split; [reflexivity|]);
    (split; [reflexivity|]); (split; [reflexivity|]).
  - split; [rewrite (newEvents_app _ _ _ Hl); apply alertsOf_attemptsTrace|].
    split.
    + intros resp' Hr. inversion Hr. split; reflexivity.
    + intros err' Hr. discriminate.
  - split.
    { erewrite newEvents_app;
        [|cbn [w_log]; rewrite Hl, <- app_assoc; reflexivity].
      rewrite alertsOf_app, alertsOf_attemptsTrace. reflexivity. }
    split.
    + intros resp' Hr. discriminate.
    + intros err' Hr. inversion Hr. subst err'.
      split; [reflexivity|]. split; [reflexivity|].
      exists (w_log w1). reflexivity.
Qed.

(** [handleStartQuiz] ends on the quiz or on the topics and leaves flag and
    artifacts alone. *)
Lemma handleStartQuiz_frame (sv : Service) (topic : Topic) (a : State)
    (w : World) :
  let a' := fst (handleStartQuiz sv topic a w) in
  (appState a' = QUIZ_VIEW \/ appState a' = TOPICS_VIEW)
  /\ isProcessingFile a' = isProcessingFile a
  /\ summaryData a' = summaryData a
  /\ kgData a' = kgData a
  /\ topics a' = topics a.
Proof.
  cbv zeta. unfold handleStartQuiz, bind.
  destruct (generateQuiz sv topic None w) as [[resp|err] w1];
    cbn [fst emit ret]; cbn; auto.
Qed.

(** *** The artifacts on the page *)

Lemma artifacts_frame (sv : Service) (a a' : State) :
  summaryData a' = summaryData a -> kgData a' = kgData a ->
  topics a' = topics a ->
  artifactsOfOneRun sv a -> artifactsOfOneRun sv a'.
Proof.
  intros Hs Hg Ht (text & w & s & g & t & H1 & H2 & H3 & H4 & H5 & H6).
  exists text, w, s, g, t. rewrite Hs, Hg, Ht. auto 10.
Qed.

(** How a run leaves the state: untouched, in [IDLE], or in [SUMMARY_VIEW]
    with the three results of this run. *)
Lemma runPipeline_outcome (sv : Service) (text : string) (a : State)
    (w : World) :
  let run := fst (runPipeline sv text a w) in
  uncaught run = false
  /\ isProcessingFile (final run) = isProcessingFile a
  /\ (final run = a
      \/ appState (final run) = IDLE
      \/ (appState (final run) = SUMMARY_VIEW
          /\ artifactsOfOneRun sv (final run))).
Proof.
  cbv zeta. destruct (nonBlank text) eqn:Hnb.
  - destruct (runPipeline sv text a w) as [run w'] eqn:E.
    destruct (runPipeline_shape sv text a w run w' Hnb E)
      as (n1 & n2 & n3 & _ & _ & _ & _ & Hcase).
    cbn [fst].
    destruct Hcase as [(e & pre & _ & _ & _ & -> & _)
                      |[(s & e & pre & _ & _ & _ & _ & -> & _)
                       |[(s & g & e & pre & _ & _ & _ & _ & _ & -> & _)
                        |(s & g & t & H1 & H2 & H3 & _ & _ & ->)]]];
      cbn [final uncaught]; (split; [reflexivity|]); (split; [reflexivity|]);
      try (right; left; reflexivity).
    right; right. split; [reflexivity|].
    exists text, w, s, g, t. repeat split; assumption.
  - rewrite runPipeline_blank
      by (rewrite nonBlank_allWhite in Hnb; apply negb_false_iff; exact Hnb).
    cbn [fst final uncaught]. auto.
Qed.

(** What holds between two actions of the user. *)
Lemma step_invariant (sv : Service) (a : State) (w : World) (ev : AppEvent) :
  appState a <> ANALYZING -> isProcessingFile a = false ->
  (appState a <> IDLE -> artifactsOfOneRun sv a) ->
  let a' := fst (step sv (a, w) ev) in
  appState a' <> ANALYZING /\ isProcessingFile a' = false
  /\ (appState a' <> IDLE -> artifactsOfOneRun sv a').
Proof.
  intros Hna Hpf Hart. cbv zeta. unfold step.
  destruct (offered a ev) eqn:Hoff; [|cbn [fst]; auto].
  destruct ev as [v| |file|item| |i|newQ|]; unfold offered in Hoff.
  - (* typing *)
    cbn [fst]. destruct (appState a) eqn:Hst; try discriminate.
    cbn. rewrite Hst. repeat split; try assumption; congruence.
  - (* analyze *)
    destruct (appState a) eqn:Hst; try discriminate.
    unfold handleAnalyze, bind, ret.
    pose proof (runPipeline_outcome sv (lectureText a) a w) as Hout.
    cbv zeta in Hout.
    destruct (runPipeline sv (lectureText a) a w) as [run w'].
    cbn [fst] in *. destruct Hout as (_ & Hp & [-> | [Hi | [Hs Ha]]]).
    + rewrite Hst. repeat split; try assumption; congruence.
    + rewrite Hi, Hp. repeat split; try assumption; congruence.
    + rewrite Hs, Hp. repeat split; auto; congruence.
  - (* a file *)
    destruct (appState a) eqn:Hst; try discriminate.
    unfold handleFileChange.
    destruct file as [f|]; [|cbn [fst ret]; rewrite Hst;
                              repeat split; try assumption; congruence].
    destruct (extractTextFromFile f) as [text|err].
    + unfold bind.
      pose proof (runPipeline_outcome sv text
                    (setLectureText text
                       (setUploadedFileName (Some (name f))
                          (setIsProcessingFile true a))) w) as Hout.
      cbv zeta in Hout.
      destruct (runPipeline sv text _ w) as [run w'].
      cbn [fst] in *. destruct Hout as (Hun & _ & Hcases). rewrite Hun.
      cbn [fst ret].
      destruct Hcases as [-> | [Hi | [Hs Ha]]].
      * cbn. rewrite Hst. repeat split; congruence.
      * cbn. rewrite Hi. repeat split; congruence.
      * cbn. rewrite Hs. repeat split; try congruence.
        intros _. eapply artifacts_frame; [| | |exact Ha]; reflexivity.
    + unfold fileCatch, bind, emit, ret. cbn. rewrite Hst.
      repeat split; congruence.
  - (* the sidebar *)
    cbn [fst]. assert (Hni : appState a <> IDLE)
      by (destruct (appState a); try discriminate; congruence).
    specialize (Hart Hni).
    destruct item; cbn; (split; [discriminate|]); (split; [assumption|]);
      intros _; (eapply artifacts_frame; [| | |exact Hart]; reflexivity).
  - (* explore *)
    cbn [fst]. assert (Hni : appState a <> IDLE)
      by (destruct (appState a); try discriminate; congruence).
    specialize (Hart Hni). cbn.
    split; [discriminate|]. split; [assumption|]. intros _.
    eapply artifacts_frame; [| | |exact Hart]; reflexivity.
  - (* a quiz is started *)
    assert (Hni : appState a <> IDLE)
      by (destruct (appState a); try discriminate; congruence).
    specialize (Hart Hni).
    destruct (nth_error (topics a) i) as [topic|];
      [|destruct (appState a); discriminate].
    pose proof (handleStartQuiz_frame sv topic a w) as Hq. cbv zeta in Hq.
    destruct (handleStartQuiz sv topic a w) as [a' w']. cbn [fst] in *.
    destruct Hq as (Hst' & Hp' & Hs' & Hg' & Ht').
    split; [destruct Hst' as [-> | ->]; discriminate|].
    split; [congruence|]. intros _.
    eapply artifacts_frame; [exact Hs'|exact Hg'|exact Ht'|exact Hart].
  - (* a regenerated quiz arrives *)
    cbn [fst]. split; [exact Hna|]. split; [exact Hpf|].
    intro Hni. eapply artifacts_frame; [| | |exact (Hart Hni)]; reflexivity.
  - (* the quiz is left *)
    cbn [fst]. assert (Hni : appState a <> IDLE)
      by (destruct (appState a); try discriminate; congruence).
    specialize (Hart Hni). cbn.
    split; [discriminate|]. split; [assumption|]. intros _.
    eapply artifacts_frame; [| | |exact Hart]; reflexivity.
Qed.

(** X20.  Partial or mixed artifacts never reach the page.  After any
    sequence of actions of the user from the start of the application,
    whatever the service answers and whatever the files contain: the page is
    never left on the loading screen, no file is left in processing, and
    whenever the page is not the entry page ([IDLE]), the summary, the
    knowledge graph and the topics held by the state are the three results
    of one and the same run of the pipeline. *)
Theorem shown_artifacts_come_from_one_run :
  forall (sv : Service) (evs : list AppEvent) (w : World),
    let a := fst (runApp sv evs (App.initial, w)) in
    appState a <> ANALYZING
    /\ isProcessingFile a = false
    /\ (appState a <> IDLE -> artifactsOfOneRun sv a)
    /\ (render a = blankPage \/ artifactsOfOneRun sv a).
Proof.
  intros sv evs w.
  assert (Hgen : forall evs a w,
            appState a <> ANALYZING -> isProcessingFile a = false ->
            (appState a <> IDLE -> artifactsOfOneRun sv a) ->
            let a' := fst (runApp sv evs (a, w)) in
            appState a' <> ANALYZING /\ isProcessingFile a' = false
            /\ (appState a' <> IDLE -> artifactsOfOneRun sv a')).
  { clear. induction evs as [|ev evs IH]; intros a w H1 H2 H3; [cbn; auto|].
    unfold runApp. cbn [fold_left].
    pose proof (step_invariant sv a w ev H1 H2 H3) as Hstep. cbv zeta in Hstep.
    destruct (step sv (a, w) ev) as [a1 w1]. cbn [fst] in Hstep.
    destruct Hstep as (K1 & K2 & K3). exact (IH a1 w1 K1 K2 K3). }
  specialize (Hgen evs App.initial w ltac:(discriminate) eq_refl
                ltac:(intro H; exfalso; apply H; reflexivity)).
  cbv zeta in *. destruct Hgen as (G1 & G2 & G3).
  repeat split; try assumption.
  destruct (appState (fst (runApp sv evs (App.initial, w)))) eqn:Hst;
    try (right; apply G3; discriminate).
  left. unfold render. rewrite Hst. reflexivity.
Qed.

End AppFlowFacts.
